(** * i8086: register file, instruction decoder and program loader of cpu.go

    A shallow embedding of [src/cpu.go].  Go's [uint8], [uint16] and [int]
    values are integers of [Z] with the wrap-around of each conversion and
    each arithmetic operation written out; the [1048576]byte array is a map
    from indices to bytes read and written under Go's run-time bounds check,
    which is made explicit; [fmt.Printf] appends to an output trace; a Go
    panic is a distinct outcome of a call. *)

From Stdlib Require Import ZArith Lia Btauto.
From stdpp Require Import base tactics option list gmap strings.
From coqutil Require Import Z.bitblast.

Local Open Scope Z_scope.

(** ** Machine integers *)

(** Conversion to [uint8] and to [uint16]: the value modulo 2^8, 2^16. *)
Definition wrap8 (z : Z) : Z := z mod 256.
Definition wrap16 (z : Z) : Z := z mod 65536.

Definition is_uint8 (z : Z) : Prop := 0 <= z < 256.
Definition is_uint16 (z : Z) : Prop := 0 <= z < 65536.

(** The [n]-bit field of [m] whose least significant bit is bit [lo] of
    [m]: the reading of "the top 6 bits", "bit 1", "the middle 3 bits" of a
    byte that the statements below use.  It is not taken from the decoder,
    which masks and shifts. *)
Definition bitfield (m lo n : Z) : Z := (m / 2 ^ lo) mod 2 ^ n.

(** ** The CPU *)

(** Number of bytes of [CPU.Memory]. *)
Definition MemSize : Z := 1048576.

(** The contents of a byte array: the byte at each index.  Only the
    indices from 0 to the length of the array are ever read or written. *)
Definition bytes : Type := Z -> Z.

(** The array with [v] written at index [i]. *)
Definition update (m : bytes) (i v : Z) : bytes :=
  fun j => if j =? i then v else m j.

Record CPU : Type := mkCPU {
  PC : Z; (* Program Counter *)
  SP : Z; (* Stack Pointer *)
  AX : Z; (* Accumulator *)
  BX : Z; (* Base *)
  CX : Z; (* Counter *)
  DX : Z; (* Data *)
  SI : Z; (* Source Index *)
  DI : Z; (* Destination Index *)
  BP : Z; (* Base Pointer *)
  CS : Z; (* Code Segment *)
  DS : Z; (* Data Segment *)
  ES : Z; (* Extra Segment *)
  SS : Z; (* Stack Segment *)
  IP : Z; (* Instruction Pointer *)
  FL : Z; (* Flag Register *)
  Flag : Z;
  programSize : Z;
  Memory : bytes
}.

(** Assignments to the fields that the program writes. *)
Definition set_PC (v : Z) (c : CPU) : CPU :=
  mkCPU v (SP c) (AX c) (BX c) (CX c) (DX c) (SI c) (DI c) (BP c) (CS c)
        (DS c) (ES c) (SS c) (IP c) (FL c) (Flag c) (programSize c) (Memory c).
Definition set_AX (v : Z) (c : CPU) : CPU :=
  mkCPU (PC c) (SP c) v (BX c) (CX c) (DX c) (SI c) (DI c) (BP c) (CS c)
        (DS c) (ES c) (SS c) (IP c) (FL c) (Flag c) (programSize c) (Memory c).
Definition set_BX (v : Z) (c : CPU) : CPU :=
  mkCPU (PC c) (SP c) (AX c) v (CX c) (DX c) (SI c) (DI c) (BP c) (CS c)
        (DS c) (ES c) (SS c) (IP c) (FL c) (Flag c) (programSize c) (Memory c).
Definition set_CX (v : Z) (c : CPU) : CPU :=
  mkCPU (PC c) (SP c) (AX c) (BX c) v (DX c) (SI c) (DI c) (BP c) (CS c)
        (DS c) (ES c) (SS c) (IP c) (FL c) (Flag c) (programSize c) (Memory c).
Definition set_DX (v : Z) (c : CPU) : CPU :=
  mkCPU (PC c) (SP c) (AX c) (BX c) (CX c) v (SI c) (DI c) (BP c) (CS c)
        (DS c) (ES c) (SS c) (IP c) (FL c) (Flag c) (programSize c) (Memory c).
Definition set_programSize (v : Z) (c : CPU) : CPU :=
  mkCPU (PC c) (SP c) (AX c) (BX c) (CX c) (DX c) (SI c) (DI c) (BP c) (CS c)
        (DS c) (ES c) (SS c) (IP c) (FL c) (Flag c) v (Memory c).
Definition set_Memory (m : bytes) (c : CPU) : CPU :=
  mkCPU (PC c) (SP c) (AX c) (BX c) (CX c) (DX c) (SI c) (DI c) (BP c) (CS c)
        (DS c) (ES c) (SS c) (IP c) (FL c) (Flag c) (programSize c) m.

(** The sixteen [uint16] fields by name. *)
Inductive Reg16 : Type :=
  | rPC | rSP | rAX | rBX | rCX | rDX | rSI | rDI | rBP
  | rCS | rDS | rES | rSS | rIP | rFL | rFlag.

Definition get16 (r : Reg16) (c : CPU) : Z :=
  match r with
  | rPC => PC c | rSP => SP c | rAX => AX c | rBX => BX c
  | rCX => CX c | rDX => DX c | rSI => SI c | rDI => DI c
  | rBP => BP c | rCS => CS c | rDS => DS c | rES => ES c
  | rSS => SS c | rIP => IP c | rFL => FL c | rFlag => Flag c
  end.

(** A state that Go's types allow: every [uint16] field below 2^16 and
    every element of the array a byte. *)
Record wf_CPU (c : CPU) : Prop := mk_wf_CPU {
  wf_regs : forall r, is_uint16 (get16 r c);
  wf_mem_bytes : forall i, 0 <= i < MemSize -> is_uint8 (Memory c i)
}.

(** [NewCPU]: [&CPU{}], every field at its zero value. *)
Definition NewCPU : CPU :=
  mkCPU 0 0 0 0 0 0 0 0 0 0 0 0 0 0 0 0 0 (fun _ => 0).

(** ** 8-bit sub-registers *)

Definition getAL (c : CPU) : Z := wrap8 (Z.land (AX c) 0xFF).
Definition getAH (c : CPU) : Z := wrap8 (Z.shiftr (AX c) 8).
Definition getBL (c : CPU) : Z := wrap8 (Z.land (BX c) 0xFF).
Definition getBH (c : CPU) : Z := wrap8 (Z.shiftr (BX c) 8).
Definition getCL (c : CPU) : Z := wrap8 (Z.land (CX c) 0xFF).
Definition getCH (c : CPU) : Z := wrap8 (Z.shiftr (CX c) 8).
Definition getDL (c : CPU) : Z := wrap8 (Z.land (DX c) 0xFF).
Definition getDH (c : CPU) : Z := wrap8 (Z.shiftr (DX c) 8).

(** In the setters [v] is a [uint8]; [uint16(v)] keeps its value and the
    shift is a [uint16] shift. *)
Definition setAL (c : CPU) (v : Z) : CPU :=
  set_AX (Z.lor (Z.land (AX c) 0xFF00) v) c.
Definition setAH (c : CPU) (v : Z) : CPU :=
  set_AX (Z.lor (Z.land (AX c) 0x00FF) (wrap16 (Z.shiftl v 8))) c.
Definition setBL (c : CPU) (v : Z) : CPU :=
  set_BX (Z.lor (Z.land (BX c) 0xFF00) v) c.
Definition setBH (c : CPU) (v : Z) : CPU :=
  set_BX (Z.lor (Z.land (BX c) 0x00FF) (wrap16 (Z.shiftl v 8))) c.
Definition setCL (c : CPU) (v : Z) : CPU :=
  set_CX (Z.lor (Z.land (CX c) 0xFF00) v) c.
Definition setCH (c : CPU) (v : Z) : CPU :=
  set_CX (Z.lor (Z.land (CX c) 0x00FF) (wrap16 (Z.shiftl v 8))) c.
Definition setDL (c : CPU) (v : Z) : CPU :=
  set_DX (Z.lor (Z.land (DX c) 0xFF00) v) c.
Definition setDH (c : CPU) (v : Z) : CPU :=
  set_DX (Z.lor (Z.land (DX c) 0x00FF) (wrap16 (Z.shiftl v 8))) c.

(** [c'] is [c] except, at most, for the register [r]: every other
    register, [programSize] and the memory array are the same. *)
Definition only_changes (r : Reg16) (c c' : CPU) : Prop :=
  (forall r', r' <> r -> get16 r' c' = get16 r' c) /\
  programSize c' = programSize c /\
  Memory c' = Memory c.

(** ** Calls: state, output and panics *)

(** Go's [error] values of this program; [nil] is [None] of
    [option error]. *)
Inductive error : Type :=
  | Errorf_invalid_opcode (opcode : Z) (* "invalid opcode: %d" *)
  | IOError (msg : string).            (* from os.Open or io.ReadAll *)

(** A run-time panic: index [i] out of range of an array of [len]
    elements. *)
Inductive panic : Type :=
  | IndexOutOfRange (i len : Z).

(** What [fmt.Printf] is given, call by call. *)
Inductive Event : Type :=
  | Print_mnemonic (s : string)
  | Print_fields (opcode d w mod_ reg rm : Z).

(** A call on a CPU either returns a value or panics; both leave a CPU
    state and the lines printed so far. *)
Inductive Outcome (A : Type) : Type :=
  | Returns (a : A) (c : CPU) (out : list Event)
  | Panics (p : panic) (c : CPU) (out : list Event).
Arguments Returns {A} a c out.
Arguments Panics {A} p c out.

Definition final_cpu {A} (o : Outcome A) : CPU :=
  match o with Returns _ c _ | Panics _ c _ => c end.
Definition output {A} (o : Outcome A) : list Event :=
  match o with Returns _ _ out | Panics _ _ out => out end.

Definition M (A : Type) : Type := CPU -> Outcome A.

Definition ret {A} (a : A) : M A := fun c => Returns a c [].
Definition bind {A B} (m : M A) (k : A -> M B) : M B := fun c =>
  match m c with
  | Returns a c1 out1 =>
      match k a c1 with
      | Returns b c2 out2 => Returns b c2 (out1 ++ out2)
      | Panics p c2 out2 => Panics p c2 (out1 ++ out2)
      end
  | Panics p c1 out1 => Panics p c1 out1
  end.

#[global] Instance M_ret : MRet M := @ret.
#[global] Instance M_bind : MBind M := fun A B k m => bind m k.

Definition in_bounds (i : Z) : bool := (0 <=? i) && (i <? MemSize).

(** [c.Memory[i]] as a value, with the bounds check of the array. *)
Definition load_byte (i : Z) : M Z := fun c =>
  if in_bounds i then Returns (Memory c i) c []
  else Panics (IndexOutOfRange i MemSize) c [].

(** [c.Memory[i] = v]. *)
Definition store_byte (i v : Z) : M unit := fun c =>
  if in_bounds i
  then Returns tt (set_Memory (update (Memory c) i v) c) []
  else Panics (IndexOutOfRange i MemSize) c [].

Definition read_PC : M Z := fun c => Returns (PC c) c [].

(** [c.PC++] on a [uint16]. *)
Definition incr_PC : M unit := fun c =>
  Returns tt (set_PC (wrap16 (PC c + 1)) c) [].

Definition printf (e : Event) : M unit := fun c => Returns tt c [e].

(** ** Opcode table and decoder *)

Inductive Instruction : Type := mkInstruction. (* a struct without fields *)

Definition mnemonics : gmap Z string := {[ 0x22 (* 0b100010 *) := "MOV"%string ]}.

(** [mnemonics[opcode]]: a key that is absent gives the empty string. *)
Definition mnemonic_of (opcode : Z) : string :=
  default ""%string (mnemonics !! opcode).

Definition calcLen (c : CPU) (opcode d w mod_ rm : Z) : Z * option error :=
  let length := wrap8 0 in
  if opcode =? 0x22 then
    let length := 1 in
    let length := if w =? 1 then 2 else length in
    (length, None)
  else (0, Some (Errorf_invalid_opcode opcode)).

Definition DecodeInatruction : M (Instruction * option error) :=
  (* Fetch *)
  pc ← read_PC;
  memory ← load_byte pc;
  incr_PC ;;
  (* Decode *)
  let opcode := Z.shiftr (Z.land memory 0xFC) 2 in
  let d := Z.shiftr (Z.land memory 0x2) 1 in
  let w := Z.land memory 0x1 in
  (* Fetch mod reg r/m *)
  pc ← read_PC;
  memory ← load_byte pc;
  incr_PC ;;
  (* Decode *)
  let mod_ := Z.shiftr (Z.land memory 0xC0) 6 in
  let reg := Z.shiftr (Z.land memory 0x38) 3 in
  let rm := Z.land memory 0x07 in
  printf (Print_mnemonic (mnemonic_of opcode)) ;;
  printf (Print_fields opcode d w mod_ reg rm) ;;
  ret (mkInstruction, None).

(** ** Loading a program *)

(** What [os.Open] followed by [io.ReadAll] gives for a file name. *)
Inductive FileResult : Type :=
  | OpenFails (e : error)
  | ReadFails (e : error)
  | FileBytes (b : list Z).

Definition FileSystem : Type := string -> FileResult.

(** [for ; i < len(b); i++ { c.Memory[i] = b[i] }], entered with [rest] the
    bytes of [b] from index [i] on; the value is [i] after the loop. *)
Fixpoint load_loop (i : Z) (rest : list Z) : M Z :=
  match rest with
  | [] => ret i
  | x :: rest' => store_byte i x ;; load_loop (i + 1) rest'
  end.

Definition LoadProgram (fs : FileSystem) (filename : string) : M (option error) :=
  match fs filename with
  | OpenFails e => ret (Some e)
  | ReadFails e => ret (Some e)
  | FileBytes b =>
      i ← load_loop 0 b;
      (fun c => Returns tt (set_programSize i c) []) ;;
      ret None
  end.

(** ** The run loop *)

(** Where a call stands after a bounded number of rounds of a loop: it has
    finished with an outcome, or it is still in the loop with a state and
    the lines printed so far. *)
Inductive Progress (A : Type) : Type :=
  | Finished (o : Outcome A)
  | Looping (c : CPU) (out : list Event).
Arguments Finished {A} o.
Arguments Looping {A} c out.

(** A [for { ... }] without condition: the body either goes round again
    ([None]) or makes the function return ([Some a]).  [fuel] bounds the
    number of rounds that are run. *)
Fixpoint for_ever {A} (fuel : nat) (body : M (option A)) (c : CPU)
    (out : list Event) : Progress A :=
  match fuel with
  | O => Looping c out
  | S fuel' =>
      match body c with
      | Returns None c' out' => for_ever fuel' body c' (out ++ out')
      | Returns (Some a) c' out' => Finished (Returns a c' (out ++ out'))
      | Panics p c' out' => Finished (Panics p c' (out ++ out'))
      end
  end.

(** The body of the loop in [Run] holds a comment only. *)
Definition Run_body : M (option (option error)) := ret None.

(** [Run], for [fuel] rounds of its loop. *)
Definition Run (fuel : nat) (c : CPU) : Progress (option error) :=
  for_ever fuel Run_body c [].

(** ** What the specification says about lengths *)

(** Displacement bytes that follow the mode byte, in the words of the
    specification's MOD/R-M rule: none in register mode (11), one for mode
    01, two for mode 10, and for mode 00 none except two for R/M = 110. *)
Definition spec_displacement_bytes (mod_ rm : Z) : Z :=
  if mod_ =? 3 then 0
  else if mod_ =? 1 then 1
  else if mod_ =? 2 then 2
  else if rm =? 6 then 2 else 0.

(** Total encoded length in the words of the specification: a base of 2
    bytes, the displacement bytes, the [imm] immediate bytes of the
    mnemonic, and one more byte for a word-size immediate. *)
Definition spec_total_length (mod_ rm imm w : Z) : Z :=
  2 + spec_displacement_bytes mod_ rm + imm
    + (if (0 <? imm) && (w =? 1) then 1 else 0).

(** ** The array after a copy *)

(** The array [m] after the bytes of [rest] have been written one by one
    from index [i] upwards. *)
Fixpoint copy_bytes (i : Z) (rest : list Z) (m : bytes) : bytes :=
  match rest with
  | [] => m
  | x :: rest' => copy_bytes (i + 1) rest' (update m i x)
  end.

(** ** The bytes that a decoding step fetches *)

Definition opcode_byte (c : CPU) : Z := Memory c (PC c).
Definition mode_byte (c : CPU) : Z := Memory c (wrap16 (PC c + 1)).

(** ** Sample states *)

(** A file system in which every name holds the bytes [b]. *)
Definition file_with (b : list Z) : FileSystem := fun _ => FileBytes b.

(** The state after [NewCPU] and [LoadProgram] of a file holding [prog]. *)
Definition loaded (prog : list Z) : CPU :=
  final_cpu (LoadProgram (file_with prog) "prog.bin" NewCPU).

(** [88 C3]: MOV between BL and AL, register mode. *)
Definition mov_reg_reg : CPU := loaded [0x88; 0xC3].

(** [88 06 34 12]: MOV with mode 00 and R/M 110, followed by the two bytes
    of the address 0x1234. *)
Definition mov_direct : CPU := loaded [0x88; 0x06; 0x34; 0x12].

(** The program counter on the last address it can hold; memory holds C3
    at address 0 and 88 everywhere else. *)
Definition at_top : CPU :=
  set_PC 0xFFFF (set_Memory (fun i => if i =? 0 then 0xC3 else 0x88) NewCPU).

(** One byte more than the memory holds, every byte 1. *)
Definition oversized : list Z := replicate (S (Z.to_nat MemSize)) 1.

(** ** Decoding step after step *)

(** [n] calls of [DecodeInatruction] one after the other, their results
    dropped. *)
Fixpoint decode_n (n : nat) : M unit :=
  match n with
  | O => ret tt
  | S n' => DecodeInatruction ;; decode_n n'
  end.

(** ** States that the functions of the file reach *)

(** The states obtained from [NewCPU] by the sub-register setters on byte
    arguments, by decoding steps that return and by loads that return, from
    files that hold bytes. *)
Inductive reachable : CPU -> Prop :=
  | reach_NewCPU : reachable NewCPU
  | reach_setAL c v : reachable c -> is_uint8 v -> reachable (setAL c v)
  | reach_setAH c v : reachable c -> is_uint8 v -> reachable (setAH c v)
  | reach_setBL c v : reachable c -> is_uint8 v -> reachable (setBL c v)
  | reach_setBH c v : reachable c -> is_uint8 v -> reachable (setBH c v)
  | reach_setCL c v : reachable c -> is_uint8 v -> reachable (setCL c v)
  | reach_setCH c v : reachable c -> is_uint8 v -> reachable (setCH c v)
  | reach_setDL c v : reachable c -> is_uint8 v -> reachable (setDL c v)
  | reach_setDH c v : reachable c -> is_uint8 v -> reachable (setDH c v)
  | reach_decode c r c' out :
      reachable c -> DecodeInatruction c = Returns r c' out -> reachable c'
  | reach_load c (fs : FileSystem) filename e c' out :
      reachable c ->
      (forall name b, fs name = FileBytes b -> Forall is_uint8 b) ->
      LoadProgram fs filename c = Returns e c' out -> reachable c'.

(** ** Diagnostic printing *)

(** One call of [fmt.Printf] in [PrintRegisters] and [PrintMemory]: the
    format as the source writes it and the integer arguments. *)
Inductive PrintfCall : Type :=
  | Printf (format : string) (args : list Z).

(** How a printing function ends: it returns, it panics, or the rounds
    granted to one of its loops are used up; each with the calls of
    [fmt.Printf] made so far. *)
Inductive Printed : Type :=
  | Done (out : list PrintfCall)
  | Crashed (p : panic) (out : list PrintfCall)
  | OutOfFuel (out : list PrintfCall).

Definition calls (r : Printed) : list PrintfCall :=
  match r with Done out | Crashed _ out | OutOfFuel out => out end.

(** [first] and, if it returns, [next] after it. *)
Definition and_then (first next : Printed) : Printed :=
  match first with
  | Done out1 =>
      match next with
      | Done out2 => Done (out1 ++ out2)
      | Crashed p out2 => Crashed p (out1 ++ out2)
      | OutOfFuel out2 => OutOfFuel (out1 ++ out2)
      end
  | Crashed p out1 => Crashed p out1
  | OutOfFuel out1 => OutOfFuel out1
  end.

Definition emit (format : string) (args : list Z) : Printed :=
  Done [Printf format args].

(** A use of [c.Memory[i]] under the bounds check of the array. *)
Definition with_byte (c : CPU) (i : Z) (k : Z -> Printed) : Printed :=
  if in_bounds i then k (Memory c i)
  else Crashed (IndexOutOfRange i MemSize) [].

(** [for j := from; ...; j++ { body }] for the [n] rounds its condition
    allows. *)
Fixpoint for_count (n : nat) (j : Z) (body : Z -> Printed) : Printed :=
  match n with
  | O => Done []
  | S n' => and_then (body j) (for_count n' (j + 1) body)
  end.

(** [for i := from; i < limit; i += 16 { body }], for at most [fuel]
    rounds. *)
Fixpoint for_rows (fuel : nat) (i limit : Z) (body : Z -> Printed) : Printed :=
  if i <? limit then
    match fuel with
    | O => OutOfFuel []
    | S fuel' => and_then (body i) (for_rows fuel' (i + 16) limit body)
    end
  else Done [].

Definition print_bits (c : CPU) (i : Z) : Printed :=
  with_byte c i (fun b => emit "%08b\n" [b]).

Definition print_hex (c : CPU) (i j : Z) : Printed :=
  with_byte c (i + j) (fun b => emit "%02X " [b]).

(** The test reads [c.Memory[i+j]] once or twice and the call once more,
    each time at the same index. *)
Definition print_ascii (c : CPU) (i j : Z) : Printed :=
  with_byte c (i + j) (fun b =>
    if (0x20 <=? b) && (b <=? 0x7E) then emit "%c" [b] else emit "." []).

Definition print_row (c : CPU) (i : Z) : Printed :=
  and_then (emit "%04X: " [i])
 (and_then (for_count 16 0 (print_hex c i))
 (and_then (emit " | " [])
 (and_then (for_count 16 0 (print_ascii c i))
           (emit "\n" [])))).

Definition PrintMemory (c : CPU) : Printed :=
  and_then (emit "Memory:\n" [])
 (and_then (for_count (Z.to_nat (programSize c)) 0 (print_bits c))
 (and_then (emit "\n" [])
           (for_rows (Z.to_nat (programSize c)) 0 (programSize c)
                     (print_row c)))).

Definition PrintRegisters (c : CPU) : Printed :=
  and_then (emit "AX: %04X %016b AH: %08b AL: %08b\n" [AX c; AX c; getAH c; getAL c])
 (and_then (emit "BX: %04X %016b BH: %08b BL: %08b\n" [BX c; BX c; getBH c; getBL c])
 (and_then (emit "CX: %04X %016b CH: %08b CL: %08b\n" [CX c; CX c; getCH c; getCL c])
 (and_then (emit "DX: %04X %016b DH: %08b DL: %08b\n" [DX c; DX c; getDH c; getDL c])
 (and_then (emit "SI: %04X %016b\n" [SI c; SI c])
 (and_then (emit "DI: %04X %016b\n" [DI c; DI c])
 (and_then (emit "BP: %04X %016b\n" [BP c; BP c])
 (and_then (emit "CS: %04X %016b\n" [CS c; CS c])
 (and_then (emit "DS: %04X %016b\n" [DS c; DS c])
 (and_then (emit "ES: %04X %016b\n" [ES c; ES c])
 (and_then (emit "SS: %04X %016b\n" [SS c; SS c])
 (and_then (emit "IP: %04X %016b\n" [IP c; IP c])
 (and_then (emit "FL: %04X %016b\n" [FL c; FL c])
 (and_then (emit "SP: %04X %016b\n" [SP c; SP c])
 (and_then (emit "PC: %04X %016b\n" [PC c; PC c])
 (and_then (emit "Flag: %04X %016b\n" [Flag c; Flag c])
           (PrintMemory c)))))))))))))))).

(** The calls of one row of the dump that starts at index [i]: the
    address, sixteen bytes in hexadecimal, a bar, the same sixteen bytes as
    characters or dots, and the end of the line. *)
Definition ascii_call (b : Z) : PrintfCall :=
  if (0x20 <=? b) && (b <=? 0x7E) then Printf "%c" [b] else Printf "." [].

Definition row_calls (c : CPU) (i : Z) : list PrintfCall :=
  [Printf "%04X: " [i]]
  ++ map (fun j => Printf "%02X " [Memory c (i + j)]) (seqZ 0 16)
  ++ [Printf " | " []]
  ++ map (fun j => ascii_call (Memory c (i + j))) (seqZ 0 16)
  ++ [Printf "\n" []].

(** Number of rows of the dump of a program of [size] bytes. *)
Definition dump_rows (size : Z) : Z := (size + 15) / 16.

(** The calls of a whole dump. *)
Definition dump_calls (c : CPU) : list PrintfCall :=
  [Printf "Memory:\n" []]
  ++ map (fun i => Printf "%08b\n" [Memory c i]) (seqZ 0 (programSize c))
  ++ [Printf "\n" []]
  ++ flat_map (fun k => row_calls c (16 * k)) (seqZ 0 (dump_rows (programSize c))).

(** ** More sample states *)

(** A file system without the file. *)
Definition no_file : FileSystem :=
  fun _ => OpenFails (IOError "open prog.bin: no such file or directory").

(** AX = 0x12AB, written half by half. *)
Definition ax_12AB : CPU := setAH (setAL NewCPU 0xAB) 0x12.

(** * Properties *)

(** ** Integers and bit fields *)

Lemma wrap8_land (z : Z) : wrap8 z = Z.land z (Z.ones 8).
Proof. unfold wrap8. rewrite Z.land_ones by lia. reflexivity. Qed.

Lemma wrap16_land (z : Z) : wrap16 z = Z.land z (Z.ones 16).
Proof. unfold wrap16. rewrite Z.land_ones by lia. reflexivity. Qed.

Lemma wrap16_range (z : Z) : is_uint16 (wrap16 z).
Proof. unfold is_uint16, wrap16. apply Z.mod_pos_bound. lia. Qed.

Lemma wrap8_range (z : Z) : is_uint8 (wrap8 z).
Proof. unfold is_uint8, wrap8. apply Z.mod_pos_bound. lia. Qed.

Lemma wrap16_succ_succ (z : Z) : wrap16 (wrap16 (z + 1) + 1) = wrap16 (z + 2).
Proof.
  unfold wrap16. rewrite Z.add_mod_idemp_l by lia. f_equal. lia.
Qed.

Lemma is_uint8_land (v : Z) : is_uint8 v -> Z.land v (Z.ones 8) = v.
Proof.
  intros Hv. rewrite Z.land_ones by lia. apply Z.mod_small. exact Hv.
Qed.

Lemma is_uint16_land (v : Z) : is_uint16 v -> Z.land v (Z.ones 16) = v.
Proof.
  intros Hv. rewrite Z.land_ones by lia. apply Z.mod_small. exact Hv.
Qed.

Lemma bitfield_land (m lo n : Z) :
  0 <= lo -> 0 <= n -> bitfield m lo n = Z.land (Z.shiftr m lo) (Z.ones n).
Proof.
  intros Hlo Hn. unfold bitfield.
  rewrite Z.land_ones, Z.shiftr_div_pow2 by assumption. reflexivity.
Qed.

(** Bit [i] of a field is bit [i + lo] of the byte, for [i] below the width
    of the field, and is clear above it. *)
Lemma bitfield_testbit (m lo n i : Z) :
  0 <= lo -> 0 <= n -> 0 <= i ->
  Z.testbit (bitfield m lo n) i = (i <? n) && Z.testbit m (i + lo).
Proof.
  intros Hlo Hn Hi. rewrite bitfield_land by assumption.
  rewrite Z.land_spec, Z.shiftr_spec, Z.testbit_ones_nonneg by assumption.
  apply andb_comm.
Qed.

Lemma bitfield_range (m lo n : Z) : 0 <= n -> 0 <= bitfield m lo n < 2 ^ n.
Proof. intros Hn. unfold bitfield. apply Z.mod_pos_bound. lia. Qed.

(** The top six bits of a byte are the byte without its two low bits. *)
Lemma bitfield_top6 (m : Z) : is_uint8 m -> bitfield m 2 6 = m / 4.
Proof.
  intros [H0 H1]. unfold bitfield. change (2 ^ 2) with 4. change (2 ^ 6) with 64.
  apply Z.mod_small. split; [apply Z.div_pos; lia|].
  apply Z.div_lt_upper_bound; lia.
Qed.

(** Masks of the program as runs of ones, the form the bit-blaster reads. *)
Ltac masks_as_ones :=
  repeat match goal with
  | |- context [Z.land ?a 0xFC] =>
      change (Z.land a 0xFC) with (Z.land a (Z.shiftl (Z.ones 6) 2))
  | |- context [Z.land ?a 0xC0] =>
      change (Z.land a 0xC0) with (Z.land a (Z.shiftl (Z.ones 2) 6))
  | |- context [Z.land ?a 0x38] =>
      change (Z.land a 0x38) with (Z.land a (Z.shiftl (Z.ones 3) 3))
  | |- context [Z.land ?a 0xFF00] =>
      change (Z.land a 0xFF00) with (Z.land a (Z.shiftl (Z.ones 8) 8))
  | |- context [Z.land ?a 0x00FF] =>
      change (Z.land a 0x00FF) with (Z.land a (Z.ones 8))
  | |- context [Z.land ?a 0x07] =>
      change (Z.land a 0x07) with (Z.land a (Z.ones 3))
  | |- context [Z.land ?a 0x2] =>
      change (Z.land a 0x2) with (Z.land a (Z.shiftl (Z.ones 1) 1))
  | |- context [Z.land ?a 0x1] =>
      change (Z.land a 0x1) with (Z.land a (Z.ones 1))
  end.

Ltac field_blast :=
  rewrite bitfield_land by lia; masks_as_ones;
  rewrite ?Z.shiftr_0_r; try reflexivity; Z.bitblast.

Lemma opcode_is_top6 (m : Z) : Z.shiftr (Z.land m 0xFC) 2 = bitfield m 2 6.
Proof. field_blast. Qed.

Lemma d_is_bit1 (m : Z) : Z.shiftr (Z.land m 0x2) 1 = bitfield m 1 1.
Proof. field_blast. Qed.

Lemma w_is_bit0 (m : Z) : Z.land m 0x1 = bitfield m 0 1.
Proof. field_blast. Qed.

Lemma mod_is_top2 (m : Z) : Z.shiftr (Z.land m 0xC0) 6 = bitfield m 6 2.
Proof. field_blast. Qed.

Lemma reg_is_mid3 (m : Z) : Z.shiftr (Z.land m 0x38) 3 = bitfield m 3 3.
Proof. field_blast. Qed.

Lemma rm_is_low3 (m : Z) : Z.land m 0x07 = bitfield m 0 3.
Proof. field_blast. Qed.

(** ** Bounds of the two fetches *)

Lemma in_bounds_uint16 (i : Z) : is_uint16 i -> in_bounds i = true.
Proof.
  unfold is_uint16, in_bounds, MemSize. intros Hi.
  apply andb_true_intro. split; [apply Z.leb_le | apply Z.ltb_lt]; lia.
Qed.

Lemma in_bounds_wrap16 (z : Z) : in_bounds (wrap16 z) = true.
Proof. apply in_bounds_uint16, wrap16_range. Qed.

(** ** Well-formed states *)

Lemma wf_CPU_PC (c : CPU) : wf_CPU c -> is_uint16 (PC c).
Proof. intros Hwf. exact (wf_regs c Hwf rPC). Qed.

Lemma NewCPU_wf : wf_CPU NewCPU.
Proof.
  split.
  - intros r. destruct r; unfold is_uint16; cbn; lia.
  - intros i _. unfold is_uint8. cbn. lia.
Qed.

Lemma set_Memory_id (c : CPU) : set_Memory (Memory c) c = c.
Proof. destruct c. reflexivity. Qed.

(** ** The decoder *)

(** Whenever the program counter indexes the array, one decoding step
    returns, with the fields read off the two bytes and the program
    counter two further on in [uint16] arithmetic. *)
Lemma DecodeInatruction_eq (c : CPU) :
  in_bounds (PC c) = true ->
  DecodeInatruction c =
    Returns (mkInstruction, None) (set_PC (wrap16 (PC c + 2)) c)
      [Print_mnemonic (mnemonic_of (bitfield (opcode_byte c) 2 6));
       Print_fields (bitfield (opcode_byte c) 2 6) (bitfield (opcode_byte c) 1 1)
                    (bitfield (opcode_byte c) 0 1) (bitfield (mode_byte c) 6 2)
                    (bitfield (mode_byte c) 3 3) (bitfield (mode_byte c) 0 3)].
Proof.
  intros Hpc.
  unfold DecodeInatruction, mbind, M_bind, bind, read_PC, load_byte, incr_PC,
    printf, ret.
  rewrite Hpc. cbn [PC set_PC Memory]. rewrite in_bounds_wrap16.
  cbn [PC set_PC Memory SP AX BX CX DX SI DI BP CS DS ES SS IP FL Flag
       programSize app].
  rewrite wrap16_succ_succ.
  rewrite opcode_is_top6, d_is_bit1, w_is_bit0, mod_is_top2, reg_is_mid3,
    rm_is_low3.
  reflexivity.
Qed.

(** ** The loader *)

Lemma copy_bytes_lookup (rest : list Z) : forall (i : Z) (m : bytes) (j : Z),
  copy_bytes i rest m j =
    if (i <=? j) && (j <? i + Z.of_nat (length rest))
    then nth (Z.to_nat (j - i)) rest 0
    else m j.
Proof.
  induction rest as [|x rest IH]; intros i m j.
  - cbn [copy_bytes length]. destruct (i <=? j) eqn:Hle; cbn [andb]; [|reflexivity].
    assert ((j <? i + Z.of_nat 0) = false) as -> by (apply Z.ltb_ge; lia).
    reflexivity.
  - cbn [copy_bytes length]. rewrite IH. unfold update.
    destruct (Z.leb_spec (i + 1) j) as [H1|H1];
      destruct (Z.ltb_spec j (i + 1 + Z.of_nat (length rest))) as [H2|H2];
      destruct (Z.leb_spec i j) as [H3|H3];
      destruct (Z.ltb_spec j (i + Z.of_nat (S (length rest)))) as [H4|H4];
      destruct (Z.eqb_spec j i) as [H5|H5];
      cbn [andb]; try lia; try reflexivity.
    + replace (Z.to_nat (j - i)) with (S (Z.to_nat (j - (i + 1)))) by lia.
      reflexivity.
    + subst j. replace (i - i) with 0 by lia. reflexivity.
Qed.

Lemma load_loop_fits (rest : list Z) : forall (i : Z) (c : CPU),
  0 <= i -> i + Z.of_nat (length rest) <= MemSize ->
  load_loop i rest c =
    Returns (i + Z.of_nat (length rest))
            (set_Memory (copy_bytes i rest (Memory c)) c) [].
Proof.
  induction rest as [|x rest IH]; intros i c Hi Hfit.
  - cbn [load_loop copy_bytes length]. unfold ret.
    rewrite set_Memory_id. f_equal. lia.
  - cbn [length] in Hfit. cbn [load_loop copy_bytes length].
    unfold mbind, M_bind, bind, store_byte.
    assert (in_bounds i = true) as ->.
    { unfold in_bounds. apply andb_true_intro.
      split; [apply Z.leb_le | apply Z.ltb_lt]; lia. }
    rewrite IH by (cbn [Memory set_Memory]; lia).
    cbn [app]. f_equal. lia.
Qed.

Lemma load_loop_overflows (rest : list Z) : forall (i : Z) (c : CPU),
  0 <= i <= MemSize -> MemSize < i + Z.of_nat (length rest) ->
  load_loop i rest c =
    Panics (IndexOutOfRange MemSize MemSize)
           (set_Memory (copy_bytes i (take (Z.to_nat (MemSize - i)) rest) (Memory c)) c)
           [].
Proof.
  induction rest as [|x rest IH]; intros i c Hi Hbig.
  - cbn [length] in Hbig. lia.
  - cbn [length] in Hbig. cbn [load_loop].
    unfold mbind, M_bind, bind, store_byte.
    destruct (Z.eq_dec i MemSize) as [->|Hne].
    + replace (in_bounds MemSize) with false by reflexivity.
      replace (MemSize - MemSize) with 0 by lia.
      change (Z.to_nat 0) with 0%nat. rewrite take_0.
      cbn [copy_bytes]. rewrite set_Memory_id. reflexivity.
    + assert (in_bounds i = true) as ->.
      { unfold in_bounds. apply andb_true_intro.
        split; [apply Z.leb_le | apply Z.ltb_lt]; lia. }
      rewrite IH by lia. cbn [app Memory set_Memory].
      replace (Z.to_nat (MemSize - i)) with (S (Z.to_nat (MemSize - (i + 1)))) by lia.
      reflexivity.
Qed.

(** A file that fits is copied to the start of the array, its length is
    recorded, and [nil] is returned. *)
Lemma LoadProgram_fits (fs : FileSystem) (filename : string) (b : list Z)
    (c : CPU) :
  fs filename = FileBytes b ->
  Z.of_nat (length b) <= MemSize ->
  LoadProgram fs filename c =
    Returns None
      (set_programSize (Z.of_nat (length b))
         (set_Memory (copy_bytes 0 b (Memory c)) c)) [].
Proof.
  intros Hfile Hfit. unfold LoadProgram. rewrite Hfile.
  unfold mbind, M_bind, bind. rewrite load_loop_fits by lia.
  reflexivity.
Qed.

(** A file longer than the array makes the copy loop panic on index
    [MemSize], after it has filled the whole array; [programSize] is not
    reached. *)
Lemma LoadProgram_overflows (fs : FileSystem) (filename : string)
    (b : list Z) (c : CPU) :
  fs filename = FileBytes b ->
  MemSize < Z.of_nat (length b) ->
  LoadProgram fs filename c =
    Panics (IndexOutOfRange MemSize MemSize)
      (set_Memory (copy_bytes 0 (take (Z.to_nat MemSize) b) (Memory c)) c) [].
Proof.
  intros Hfile Hbig. unfold LoadProgram. rewrite Hfile.
  unfold mbind, M_bind, bind.
  rewrite load_loop_overflows by (unfold MemSize in *; lia).
  rewrite Z.sub_0_r. reflexivity.
Qed.

Lemma copy_bytes_wf (b : list Z) (m : bytes) :
  Forall is_uint8 b ->
  (forall i, 0 <= i < MemSize -> is_uint8 (m i)) ->
  forall i, 0 <= i < MemSize -> is_uint8 (copy_bytes 0 b m i).
Proof.
  intros Hb Hm i Hi. rewrite copy_bytes_lookup.
  destruct ((0 <=? i) && (i <? 0 + Z.of_nat (length b))) eqn:Hin.
  - apply andb_prop in Hin. destruct Hin as [_ Hlt]. apply Z.ltb_lt in Hlt.
    rewrite Forall_forall in Hb. apply Hb. apply list_elem_of_In.
    apply nth_In. lia.
  - apply Hm, Hi.
Qed.

Lemma loaded_eq (prog : list Z) :
  Z.of_nat (length prog) <= MemSize ->
  loaded prog =
    set_programSize (Z.of_nat (length prog))
      (set_Memory (copy_bytes 0 prog (Memory NewCPU)) NewCPU).
Proof.
  intros Hfit. unfold loaded.
  rewrite (LoadProgram_fits (file_with prog) "prog.bin" prog NewCPU eq_refl Hfit).
  reflexivity.
Qed.

Lemma loaded_wf (prog : list Z) :
  Z.of_nat (length prog) <= MemSize -> Forall is_uint8 prog ->
  wf_CPU (loaded prog).
Proof.
  intros Hfit Hbytes. rewrite loaded_eq by exact Hfit. split.
  - intros r. destruct r; unfold is_uint16; cbn; lia.
  - intros i Hi. cbn [Memory set_programSize set_Memory].
    apply copy_bytes_wf; [exact Hbytes | | exact Hi].
    intros k _. unfold is_uint8. cbn. lia.
Qed.

Lemma mov_reg_reg_wf : wf_CPU mov_reg_reg.
Proof.
  apply loaded_wf.
  - unfold MemSize. cbn. lia.
  - repeat constructor; unfold is_uint8; lia.
Qed.

Lemma mov_direct_wf : wf_CPU mov_direct.
Proof.
  apply loaded_wf.
  - unfold MemSize. cbn. lia.
  - repeat constructor; unfold is_uint8; lia.
Qed.

Lemma at_top_wf : wf_CPU at_top.
Proof.
  split.
  - intros r. destruct r; unfold is_uint16; cbn; lia.
  - intros i _. unfold is_uint8. cbn [Memory at_top set_PC set_Memory].
    destruct (i =? 0); lia.
Qed.

(** ** Claims about the decoder *)

(** C1.  In every well-formed state one decoding step returns; what it
    hands to the printer is, from the byte fetched first, the opcode class
    as its top 6 bits, the direction as bit 1 and the width as bit 0, and
    from the byte fetched second, the mode as its top 2 bits, the register
    selector as its middle 3 bits and the register/memory selector as its
    low 3 bits; the program counter is left 2 above its starting value in
    the 16-bit arithmetic of the register, which is its starting value
    plus 2 whenever that fits 16 bits. *)
Theorem DecodeInatruction_extracts_fields (c : CPU) (Hwf : wf_CPU c) :
  exists c',
    DecodeInatruction c =
      Returns (mkInstruction, None) c'
        [Print_mnemonic (mnemonic_of (bitfield (opcode_byte c) 2 6));
         Print_fields (bitfield (opcode_byte c) 2 6)
                      (bitfield (opcode_byte c) 1 1)
                      (bitfield (opcode_byte c) 0 1)
                      (bitfield (mode_byte c) 6 2)
                      (bitfield (mode_byte c) 3 3)
                      (bitfield (mode_byte c) 0 3)]
    /\ PC c' = wrap16 (PC c + 2)
    /\ (PC c + 2 < 65536 -> PC c' = PC c + 2).
Proof.
  pose proof (wf_CPU_PC c Hwf) as Hpc.
  exists (set_PC (wrap16 (PC c + 2)) c). split; [|split].
  - apply DecodeInatruction_eq, in_bounds_uint16, Hpc.
  - reflexivity.
  - intros Hfit. cbn [PC set_PC]. unfold wrap16, is_uint16 in *.
    apply Z.mod_small. lia.
Qed.

Lemma DecodeInatruction_extracts_fields_witness :
  wf_CPU mov_reg_reg /\
  exists c',
    DecodeInatruction mov_reg_reg =
      Returns (mkInstruction, None) c'
        [Print_mnemonic "MOV"; Print_fields 0x22 0 0 3 0 3]
    /\ PC c' = 2.
Proof.
  split; [exact mov_reg_reg_wf|].
  destruct (DecodeInatruction_extracts_fields mov_reg_reg mov_reg_reg_wf)
    as (c' & Hrun & Hpc & _).
  exists c'. split; [exact Hrun | exact Hpc].
Defined.

(** C9.  Whatever the starting state, the state that one decoding step
    leaves has the same memory array, the same [programSize] and the same
    value in every register other than the program counter: it is the
    starting state with a new program counter. *)
Theorem DecodeInatruction_frame (c : CPU) :
  Memory (final_cpu (DecodeInatruction c)) = Memory c /\
  programSize (final_cpu (DecodeInatruction c)) = programSize c /\
  (forall r, r <> rPC ->
     get16 r (final_cpu (DecodeInatruction c)) = get16 r c) /\
  final_cpu (DecodeInatruction c) =
    set_PC (PC (final_cpu (DecodeInatruction c))) c.
Proof.
  assert (Hshape : exists pc, final_cpu (DecodeInatruction c) = set_PC pc c).
  { destruct (in_bounds (PC c)) eqn:Hpc.
    - rewrite DecodeInatruction_eq by exact Hpc. eexists. reflexivity.
    - unfold DecodeInatruction, mbind, M_bind, bind, read_PC, load_byte.
      rewrite Hpc. exists (PC c). destruct c. reflexivity. }
  destruct Hshape as [pc ->]. repeat split.
  intros r Hr. destruct r; try reflexivity. contradiction.
Qed.

(** C10.  In every well-formed state the two indices at which one decoding
    step reads memory, the program counter and its [uint16] successor, are
    below 65,536 and so below the 1,048,576 bytes of the array: the step
    returns and does not panic.  It leaves the program counter 2 further
    modulo 2^16 and returns no error, also when that wraps: from 0xFFFF
    the program counter comes out as 1, from 0xFFFE as 0. *)
Theorem DecodeInatruction_fetches_in_bounds (c : CPU) (Hwf : wf_CPU c) :
  (0 <= PC c < 65536 /\ 0 <= wrap16 (PC c + 1) < 65536 /\ 65536 < MemSize) /\
  in_bounds (PC c) = true /\
  in_bounds (wrap16 (PC c + 1)) = true /\
  (exists out,
     DecodeInatruction c =
       Returns (mkInstruction, None) (set_PC ((PC c + 2) mod 2 ^ 16) c) out) /\
  (PC c = 0xFFFF -> PC (final_cpu (DecodeInatruction c)) = 1) /\
  (PC c = 0xFFFE -> PC (final_cpu (DecodeInatruction c)) = 0).
Proof.
  pose proof (wf_CPU_PC c Hwf) as Hpc.
  pose proof (in_bounds_uint16 _ Hpc) as Hin.
  split; [|split; [|split; [|split; [|split]]]].
  - split; [exact Hpc|]. split; [apply wrap16_range|]. unfold MemSize. lia.
  - exact Hin.
  - apply in_bounds_wrap16.
  - eexists. apply DecodeInatruction_eq, Hin.
  - intros Htop. rewrite DecodeInatruction_eq by exact Hin.
    cbn [final_cpu PC set_PC]. rewrite Htop. reflexivity.
  - intros Htop. rewrite DecodeInatruction_eq by exact Hin.
    cbn [final_cpu PC set_PC]. rewrite Htop. reflexivity.
Qed.

Lemma DecodeInatruction_fetches_in_bounds_witness :
  wf_CPU at_top /\
  DecodeInatruction at_top =
    Returns (mkInstruction, None) (set_PC 1 at_top)
      [Print_mnemonic "MOV"; Print_fields 0x22 0 0 3 0 3].
Proof.
  split; [exact at_top_wf|].
  destruct (DecodeInatruction_fetches_in_bounds at_top at_top_wf)
    as (_ & Hin & _ & _ & _ & _).
  rewrite DecodeInatruction_eq by exact Hin. reflexivity.
Defined.

(** C3, at a memory whose first byte has opcode class 0.  Class 0 has no
    entry in the opcode table and [calcLen] rejects it as an invalid
    opcode, yet the decoding step prints an empty mnemonic and returns
    with a [nil] error. *)
Theorem DecodeInatruction_unknown_opcode_returns_nil :
  bitfield (opcode_byte NewCPU) 2 6 = 0 /\
  mnemonics !! 0 = None /\
  calcLen NewCPU 0 0 0 0 0 = (0, Some (Errorf_invalid_opcode 0)) /\
  DecodeInatruction NewCPU =
    Returns (mkInstruction, None) (set_PC 2 NewCPU)
      [Print_mnemonic ""; Print_fields 0 0 0 0 0 0].
Proof.
  split; [reflexivity|]. split; [reflexivity|]. split; [reflexivity|].
  rewrite DecodeInatruction_eq by reflexivity. reflexivity.
Qed.

(** A step on a mode byte with mode 00 and R/M 110, in [mov_direct],
    leaves the program counter on 2, not on 4: the two bytes of the
    address are not consumed; its result is the field-less instruction. *)
Lemma DecodeInatruction_direct_address_counterexample :
  bitfield (mode_byte mov_direct) 6 2 = 0 /\
  bitfield (mode_byte mov_direct) 0 3 = 6 /\
  DecodeInatruction mov_direct =
    Returns (mkInstruction, None) (set_PC 2 mov_direct)
      [Print_mnemonic "MOV"; Print_fields 0x22 0 0 0 0 6] /\
  PC (final_cpu (DecodeInatruction mov_direct)) <> PC mov_direct + 2 + 2.
Proof.
  assert (Hrun : DecodeInatruction mov_direct =
    Returns (mkInstruction, None) (set_PC 2 mov_direct)
      [Print_mnemonic "MOV"; Print_fields 0x22 0 0 0 0 6]).
  { rewrite DecodeInatruction_eq by reflexivity. reflexivity. }
  split; [reflexivity|]. split; [reflexivity|]. split; [exact Hrun|].
  rewrite Hrun. cbn. discriminate.
Qed.

(** What a decoding step does at present on any mode byte with mode 00
    and R/M 110, in every well-formed state: it returns the field-less
    instruction without error, reports mode 00 and R/M 110 to the printer
    and leaves the program counter 2 further modulo 2^16: it consumes the
    two base bytes and no displacement byte.  The instruction it returns
    is the only value of its type and holds no operand, neither a direct
    address nor (BP). *)
Theorem DecodeInatruction_mode00_rm110 (c : CPU) (Hwf : wf_CPU c)
    (Hmod : bitfield (mode_byte c) 6 2 = 0)
    (Hrm : bitfield (mode_byte c) 0 3 = 6) :
  DecodeInatruction c =
    Returns (mkInstruction, None) (set_PC (wrap16 (PC c + 2)) c)
      [Print_mnemonic (mnemonic_of (bitfield (opcode_byte c) 2 6));
       Print_fields (bitfield (opcode_byte c) 2 6)
                    (bitfield (opcode_byte c) 1 1)
                    (bitfield (opcode_byte c) 0 1)
                    0 (bitfield (mode_byte c) 3 3) 6] /\
  (forall i : Instruction, i = mkInstruction).
Proof.
  split.
  - rewrite DecodeInatruction_eq
      by (apply in_bounds_uint16, wf_CPU_PC, Hwf).
    rewrite Hmod, Hrm. reflexivity.
  - intros []. reflexivity.
Qed.

Lemma DecodeInatruction_mode00_rm110_witness :
  wf_CPU mov_direct /\
  bitfield (mode_byte mov_direct) 6 2 = 0 /\
  bitfield (mode_byte mov_direct) 0 3 = 6 /\
  DecodeInatruction mov_direct =
    Returns (mkInstruction, None) (set_PC 2 mov_direct)
      [Print_mnemonic "MOV"; Print_fields 0x22 0 0 0 0 6].
Proof.
  split; [exact mov_direct_wf|]. split; [reflexivity|]. split; [reflexivity|].
  exact (proj1 (DecodeInatruction_mode00_rm110 mov_direct mov_direct_wf
                  eq_refl eq_refl)).
Defined.

(** C5, at the memory 88 06 34 12 (mode 00, R/M 110, then the address
    0x1234).  The comment of the source on the MOD field says that with
    R/M = 110 a 16-bit displacement follows.  The decoding step reads mode
    00 and R/M 110 off the mode byte, yet it returns the field-less
    instruction and leaves the program counter on 2, not on 4: the two
    bytes of the address are not consumed, and the next step decodes them,
    34 12, as an instruction of opcode class 0b001101. *)
Theorem DecodeInatruction_direct_address_not_consumed :
  bitfield (mode_byte mov_direct) 6 2 = 0 /\
  bitfield (mode_byte mov_direct) 0 3 = 6 /\
  DecodeInatruction mov_direct =
    Returns (mkInstruction, None) (set_PC 2 mov_direct)
      [Print_mnemonic "MOV"; Print_fields 0x22 0 0 0 0 6] /\
  PC (final_cpu (DecodeInatruction mov_direct)) <> 4 /\
  DecodeInatruction (final_cpu (DecodeInatruction mov_direct)) =
    Returns (mkInstruction, None) (set_PC 4 mov_direct)
      [Print_mnemonic ""; Print_fields 13 0 0 0 2 2].
Proof.
  assert (Hrun : DecodeInatruction mov_direct =
    Returns (mkInstruction, None) (set_PC 2 mov_direct)
      [Print_mnemonic "MOV"; Print_fields 0x22 0 0 0 0 6]).
  { rewrite DecodeInatruction_eq by reflexivity. reflexivity. }
  split; [reflexivity|]. split; [reflexivity|]. split; [exact Hrun|].
  rewrite Hrun. cbn [final_cpu]. split.
  - cbn [PC set_PC]. discriminate.
  - rewrite DecodeInatruction_eq by reflexivity.
    unfold opcode_byte, mode_byte, set_PC.
    cbn [PC SP AX BX CX DX SI DI BP CS DS ES SS IP FL Flag programSize
         Memory].
    reflexivity.
Qed.

(** ** Claims about the length computation *)

(** For the register-to-register move of [mov_reg_reg] (class 0b100010,
    D = 0, W = 0, mode 11, R/M 011), which is in the opcode table,
    [calcLen] gives 1, below the base of 2 bytes: no count of immediate
    bytes makes it the total length of the specification. *)
Lemma calcLen_total_length_counterexample :
  mnemonics !! 0x22 = Some "MOV"%string /\
  calcLen mov_reg_reg 0x22 0 0 3 3 = (1, None) /\
  (forall imm, 0 <= imm ->
     fst (calcLen mov_reg_reg 0x22 0 0 3 3) <> spec_total_length 3 3 imm 0).
Proof.
  split; [reflexivity|]. split; [reflexivity|].
  intros imm Himm. unfold spec_total_length, spec_displacement_bytes.
  cbn [fst calcLen Z.eqb Pos.eqb]. destruct (0 <? imm); cbn; lia.
Qed.

(** C2, as the code has it.  For an opcode class with an entry in the
    opcode table and a width bit [w], [calcLen] returns the length [1 + w]
    and no error, whatever the state, the direction, the mode and the
    R/M selector are; for a class without an entry it returns length 0 and
    the invalid-opcode error, whatever the width bit is. *)
Theorem calcLen_by_width (c : CPU) (opcode d w mod_ rm : Z)
    (Hw : w = 0 \/ w = 1) :
  calcLen c opcode d w mod_ rm =
    match mnemonics !! opcode with
    | Some _ => (1 + w, None)
    | None => (0, Some (Errorf_invalid_opcode opcode))
    end.
Proof.
  unfold calcLen, mnemonics.
  destruct (Z.eqb_spec opcode 0x22) as [->|Hne].
  - rewrite lookup_singleton_eq. destruct Hw as [-> | ->]; reflexivity.
  - rewrite lookup_singleton_ne by congruence. reflexivity.
Qed.

Lemma calcLen_by_width_witness :
  (1 = 0 \/ 1 = 1) /\
  calcLen mov_reg_reg 0x22 0 1 3 3 = (2, None) /\
  calcLen mov_reg_reg 0 0 1 3 3 = (0, Some (Errorf_invalid_opcode 0)).
Proof.
  split; [right; reflexivity|]. split.
  - exact (calcLen_by_width mov_reg_reg 0x22 0 1 3 3 (or_intror eq_refl)).
  - exact (calcLen_by_width mov_reg_reg 0 0 1 3 3 (or_intror eq_refl)).
Defined.

(** ** Claims about the run loop *)

(** A loop whose body always goes round again, changing and printing
    nothing, is still in the loop after any number of rounds, in the state
    in which it was entered. *)
Lemma for_ever_idle {A} (body : M (option A)) :
  (forall c, body c = Returns None c []) ->
  forall fuel c out, for_ever fuel body c out = Looping c out.
Proof.
  intros Hbody fuel. induction fuel as [|fuel IH]; intros c out.
  - reflexivity.
  - cbn [for_ever]. rewrite Hbody, app_nil_r. apply IH.
Qed.

(** With the program [88 C3] loaded, [Run] has not returned after any
    number of rounds of its loop: it reaches no terminal state and reports
    nothing. *)
Lemma Run_terminates_counterexample :
  ~ exists fuel o, Run fuel mov_reg_reg = Finished o.
Proof.
  intros (fuel & o & Hrun). unfold Run in Hrun.
  rewrite for_ever_idle in Hrun; [discriminate|].
  intros c. reflexivity.
Qed.

(** C6, as the code has it.  From every state and after every number of
    rounds, [Run] is still in its loop, in the state in which it was
    called and with nothing printed: it never returns to its caller, with
    or without an error. *)
Theorem Run_never_returns (fuel : nat) (c : CPU) :
  Run fuel c = Looping c [] /\
  (forall o, Run fuel c <> Finished o).
Proof.
  assert (Hrun : Run fuel c = Looping c []).
  { unfold Run. apply for_ever_idle. intros c0. reflexivity. }
  split; [exact Hrun|]. intros o. rewrite Hrun. discriminate.
Qed.

(** ** Claims about the loader *)

(** The array after an oversized copy: inside the array the bytes of the
    file, outside it nothing written. *)
Lemma copy_bytes_oversized (b : list Z) (m : bytes) (i : Z) :
  MemSize < Z.of_nat (length b) ->
  copy_bytes 0 (take (Z.to_nat MemSize) b) m i =
    if (0 <=? i) && (i <? MemSize) then nth (Z.to_nat i) b 0 else m i.
Proof.
  intros Hbig. rewrite copy_bytes_lookup, length_take.
  assert (HM : 0 <= MemSize) by (unfold MemSize; lia).
  replace (0 + Z.of_nat (Z.to_nat MemSize `min` length b)) with MemSize by lia.
  destruct (Z.leb_spec 0 i) as [H0|H0]; cbn [andb]; [|reflexivity].
  destruct (Z.ltb_spec i MemSize) as [H1|H1]; [|reflexivity].
  rewrite Z.sub_0_r, nth_firstn.
  assert ((Z.to_nat i <? Z.to_nat MemSize)%nat = true) as ->
    by (apply Nat.ltb_lt; lia).
  reflexivity.
Qed.

Lemma oversized_length : MemSize < Z.of_nat (length oversized).
Proof.
  unfold oversized. rewrite length_replicate, Nat2Z.inj_succ.
  rewrite Z2Nat.id by (unfold MemSize; lia). lia.
Qed.

Lemma oversized_byte (i : nat) :
  (i <= Z.to_nat MemSize)%nat -> nth i oversized 0 = 1.
Proof.
  unfold oversized. generalize (Z.to_nat MemSize). intros n. revert i.
  induction n as [|n IH]; intros i Hi.
  - replace i with 0%nat by lia. reflexivity.
  - destruct i as [|i]; [reflexivity|].
    change (nth (S i) (replicate (S (S n)) 1) 0)
      with (nth i (replicate (S n) 1) 0).
    apply IH. lia.
Qed.

Lemma oversized_head : nth (Z.to_nat 0) oversized 0 = 1.
Proof.
  unfold oversized. generalize (Z.to_nat MemSize). intros n. reflexivity.
Qed.

(** Loading [oversized] into a new CPU does not return, so it returns no
    error, and the byte at address 0 is no longer what it was. *)
Lemma LoadProgram_oversized_counterexample :
  MemSize < Z.of_nat (length oversized) /\
  (forall e c' out,
     LoadProgram (file_with oversized) "big.bin" NewCPU <> Returns e c' out) /\
  Memory (final_cpu (LoadProgram (file_with oversized) "big.bin" NewCPU)) 0
    <> Memory NewCPU 0.
Proof.
  pose proof oversized_length as Hbig.
  split; [exact Hbig|].
  rewrite (LoadProgram_overflows (file_with oversized) "big.bin" oversized
             NewCPU eq_refl Hbig).
  split; [discriminate|].
  cbn [final_cpu Memory set_Memory].
  rewrite copy_bytes_oversized by exact Hbig.
  change ((0 <=? 0) && (0 <? MemSize)) with true. cbv iota.
  rewrite oversized_head. cbn [Memory NewCPU]. discriminate.
Qed.

(** What loading does at present with any file longer than the 1,048,576
    bytes of memory: the call does not return, the copy loop panics on index
    1,048,576.  By then every byte of the array holds the byte of the file
    at the same index; nothing outside the array has been written, and
    [programSize] and the registers are as before. *)
Theorem LoadProgram_oversized_panics (fs : FileSystem) (filename : string)
    (b : list Z) (c : CPU)
    (Hfile : fs filename = FileBytes b)
    (Hbig : MemSize < Z.of_nat (length b)) :
  exists c',
    LoadProgram fs filename c = Panics (IndexOutOfRange MemSize MemSize) c' [] /\
    (forall i, 0 <= i < MemSize -> Memory c' i = nth (Z.to_nat i) b 0) /\
    (forall i, ~ 0 <= i < MemSize -> Memory c' i = Memory c i) /\
    programSize c' = programSize c /\
    (forall r, get16 r c' = get16 r c).
Proof.
  eexists. split; [apply LoadProgram_overflows; eassumption|].
  cbn [Memory programSize set_Memory]. repeat split.
  - intros i Hi. rewrite copy_bytes_oversized by exact Hbig.
    destruct (Z.leb_spec 0 i); destruct (Z.ltb_spec i MemSize);
      cbn [andb]; first [lia | reflexivity].
  - intros i Hi. rewrite copy_bytes_oversized by exact Hbig.
    destruct (Z.leb_spec 0 i); destruct (Z.ltb_spec i MemSize);
      cbn [andb]; first [lia | reflexivity].
Qed.

Lemma LoadProgram_oversized_panics_witness :
  file_with oversized "big.bin"%string = FileBytes oversized /\
  MemSize < Z.of_nat (length oversized) /\
  exists c',
    LoadProgram (file_with oversized) "big.bin" NewCPU =
      Panics (IndexOutOfRange MemSize MemSize) c' [] /\
    Memory c' 0 = 1.
Proof.
  split; [reflexivity|]. split; [exact oversized_length|].
  destruct (LoadProgram_oversized_panics (file_with oversized) "big.bin"
              oversized NewCPU eq_refl oversized_length)
    as (c' & Hrun & Hin & _).
  exists c'. split; [exact Hrun|].
  rewrite Hin by (unfold MemSize; lia). exact oversized_head.
Defined.

(** C4, at a file of 1,048,577 bytes, each of them 1, loaded into a new
    CPU.  The call does not return an error: the copy loop, which has no
    check of the length, panics on index 1,048,576.  By then the memory has
    been overwritten (address 0 holds 1, no longer 0) and [programSize] is
    still 0.  The other way in which the same call fails, a file that
    cannot be opened, returns its error and leaves the CPU as it was. *)
Theorem LoadProgram_oversized_crashes :
  MemSize < Z.of_nat (length oversized) /\
  (exists c',
     LoadProgram (file_with oversized) "big.bin" NewCPU =
       Panics (IndexOutOfRange MemSize MemSize) c' [] /\
     Memory c' 0 = 1 /\ Memory NewCPU 0 = 0 /\
     (forall i, 0 <= i < MemSize -> Memory c' i = 1) /\
     programSize c' = 0) /\
  LoadProgram no_file "big.bin" NewCPU =
    Returns (Some (IOError "open prog.bin: no such file or directory"))
      NewCPU [].
Proof.
  pose proof oversized_length as Hbig.
  split; [exact Hbig|]. split; [|reflexivity].
  eexists. split.
  - exact (LoadProgram_overflows (file_with oversized) "big.bin" oversized
             NewCPU eq_refl Hbig).
  - cbn [Memory programSize set_Memory NewCPU].
    assert (Hall : forall i, 0 <= i < MemSize ->
              copy_bytes 0 (take (Z.to_nat MemSize) oversized) (fun _ => 0) i = 1).
    { intros i Hi. rewrite copy_bytes_oversized by exact Hbig.
      destruct (Z.leb_spec 0 i); destruct (Z.ltb_spec i MemSize);
        cbn [andb]; try lia.
      apply oversized_byte. lia. }
    split; [apply Hall; unfold MemSize; lia|].
    split; [reflexivity|]. split; [exact Hall | reflexivity].
Qed.

(** ** Claims about the register file *)

Ltac reg_blast :=
  rewrite ?wrap8_land, ?wrap16_land; masks_as_ones; Z.bitblast;
  subst;
  repeat match goal with
  | |- context [Z.testbit ?x ?n] => rewrite (Z.testbit_neg_r x n) by lia
  end;
  btauto.

(** The low byte read back after it was written. *)
Lemma low_after_set_low (a v : Z) :
  is_uint8 v -> wrap8 (Z.land (Z.lor (Z.land a 0xFF00) v) 0xFF) = v.
Proof.
  intros Hv. rewrite <- (is_uint8_land v Hv) at 2.
  rewrite <- (is_uint8_land v Hv) at 1. reg_blast.
Qed.

(** The high byte is not disturbed by a write of the low byte. *)
Lemma high_after_set_low (a v : Z) :
  is_uint8 v ->
  wrap8 (Z.shiftr (Z.lor (Z.land a 0xFF00) v) 8) = wrap8 (Z.shiftr a 8).
Proof.
  intros Hv. rewrite <- (is_uint8_land v Hv). reg_blast.
Qed.

(** The high byte read back after it was written. *)
Lemma high_after_set_high (a v : Z) :
  is_uint8 v ->
  wrap8 (Z.shiftr (Z.lor (Z.land a 0x00FF) (wrap16 (Z.shiftl v 8))) 8) = v.
Proof.
  intros Hv. rewrite <- (is_uint8_land v Hv) at 2.
  rewrite <- (is_uint8_land v Hv) at 1. reg_blast.
Qed.

(** The low byte is not disturbed by a write of the high byte. *)
Lemma low_after_set_high (a v : Z) :
  wrap8 (Z.land (Z.lor (Z.land a 0x00FF) (wrap16 (Z.shiftl v 8))) 0xFF)
  = wrap8 (Z.land a 0xFF).
Proof. reg_blast. Qed.

(** The low byte and the high byte of a 16-bit value, written one after
    the other over any old value, compose the value again. *)
Lemma compose_low_high (a v : Z) :
  is_uint16 v ->
  Z.lor (Z.land (Z.lor (Z.land a 0xFF00) (Z.land v 0xFF)) 0x00FF)
        (wrap16 (Z.shiftl (Z.land (Z.shiftr v 8) 0xFF) 8)) = v.
Proof.
  intros Hv. rewrite <- (is_uint16_land v Hv) at 3.
  reg_blast.
Qed.

Lemma low_byte_read (v : Z) : wrap8 (Z.land v 0xFF) = Z.land v 0xFF.
Proof. reg_blast. Qed.

Lemma high_byte_read (v : Z) : wrap8 (Z.shiftr v 8) = Z.land (Z.shiftr v 8) 0xFF.
Proof. reg_blast. Qed.

Ltac unfold_regs :=
  unfold getAL, getAH, getBL, getBH, getCL, getCH, getDL, getDH,
    setAL, setAH, setBL, setBH, setCL, setCH, setDL, setDH;
  cbn [AX BX CX DX set_AX set_BX set_CX set_DX].

(** C7.  For every 16-bit value [v]: once [v] is in AX, AL reads
    [v & 0xFF] and AH reads [(v >> 8) & 0xFF]; and writing that low byte
    and then that high byte, over whatever AX held, leaves [v] in AX.  The
    same holds for BX, CX and DX with their halves. *)
Theorem sub_register_aliasing (c : CPU) (v : Z) (Hv : is_uint16 v) :
  (getAL (set_AX v c) = Z.land v 0xFF /\
   getAH (set_AX v c) = Z.land (Z.shiftr v 8) 0xFF /\
   forall c0, AX (setAH (setAL c0 (getAL (set_AX v c))) (getAH (set_AX v c))) = v) /\
  (getBL (set_BX v c) = Z.land v 0xFF /\
   getBH (set_BX v c) = Z.land (Z.shiftr v 8) 0xFF /\
   forall c0, BX (setBH (setBL c0 (getBL (set_BX v c))) (getBH (set_BX v c))) = v) /\
  (getCL (set_CX v c) = Z.land v 0xFF /\
   getCH (set_CX v c) = Z.land (Z.shiftr v 8) 0xFF /\
   forall c0, CX (setCH (setCL c0 (getCL (set_CX v c))) (getCH (set_CX v c))) = v) /\
  (getDL (set_DX v c) = Z.land v 0xFF /\
   getDH (set_DX v c) = Z.land (Z.shiftr v 8) 0xFF /\
   forall c0, DX (setDH (setDL c0 (getDL (set_DX v c))) (getDH (set_DX v c))) = v).
Proof.
  repeat apply conj; try intros c0; unfold_regs;
    rewrite ?low_byte_read, ?high_byte_read;
    first [reflexivity | apply compose_low_high; exact Hv].
Qed.

Lemma sub_register_aliasing_witness :
  is_uint16 0x12AB /\
  getAL (set_AX 0x12AB NewCPU) = 0xAB /\
  getAH (set_AX 0x12AB NewCPU) = 0x12 /\
  AX (setAH (setAL (set_AX 0xFFFF NewCPU) 0xAB) 0x12) = 0x12AB.
Proof.
  assert (Hv : is_uint16 0x12AB) by (unfold is_uint16; lia).
  split; [exact Hv|].
  destruct (sub_register_aliasing NewCPU 0x12AB Hv)
    as ((Hlo & Hhi & Hcomp) & _).
  split; [exact Hlo|]. split; [exact Hhi|].
  exact (Hcomp (set_AX 0xFFFF NewCPU)).
Defined.

Lemma only_changes_set_AX (c : CPU) (v : Z) : only_changes rAX c (set_AX v c).
Proof.
  repeat split. intros r Hr. destruct r; try reflexivity. contradiction.
Qed.

Lemma only_changes_set_BX (c : CPU) (v : Z) : only_changes rBX c (set_BX v c).
Proof.
  repeat split. intros r Hr. destruct r; try reflexivity. contradiction.
Qed.

Lemma only_changes_set_CX (c : CPU) (v : Z) : only_changes rCX c (set_CX v c).
Proof.
  repeat split. intros r Hr. destruct r; try reflexivity. contradiction.
Qed.

Lemma only_changes_set_DX (c : CPU) (v : Z) : only_changes rDX c (set_DX v c).
Proof.
  repeat split. intros r Hr. destruct r; try reflexivity. contradiction.
Qed.

(** C8.  For every state and every byte [v], each of the eight setters
    puts [v] in its own half of its own register, leaves the other half of
    that register as it was, and leaves every other register,
    [programSize] and the whole memory array as they were. *)
Theorem sub_register_setters_frame (c : CPU) (v : Z) (Hv : is_uint8 v) :
  (getAL (setAL c v) = v /\ getAH (setAL c v) = getAH c /\
   only_changes rAX c (setAL c v)) /\
  (getAH (setAH c v) = v /\ getAL (setAH c v) = getAL c /\
   only_changes rAX c (setAH c v)) /\
  (getBL (setBL c v) = v /\ getBH (setBL c v) = getBH c /\
   only_changes rBX c (setBL c v)) /\
  (getBH (setBH c v) = v /\ getBL (setBH c v) = getBL c /\
   only_changes rBX c (setBH c v)) /\
  (getCL (setCL c v) = v /\ getCH (setCL c v) = getCH c /\
   only_changes rCX c (setCL c v)) /\
  (getCH (setCH c v) = v /\ getCL (setCH c v) = getCL c /\
   only_changes rCX c (setCH c v)) /\
  (getDL (setDL c v) = v /\ getDH (setDL c v) = getDH c /\
   only_changes rDX c (setDL c v)) /\
  (getDH (setDH c v) = v /\ getDL (setDH c v) = getDL c /\
   only_changes rDX c (setDH c v)).
Proof.
  repeat apply conj;
    first [ apply only_changes_set_AX | apply only_changes_set_BX
          | apply only_changes_set_CX | apply only_changes_set_DX
          | unfold_regs;
            first [ apply low_after_set_low; exact Hv
                  | apply high_after_set_low; exact Hv
                  | apply high_after_set_high; exact Hv
                  | apply low_after_set_high ] ].
Qed.

Lemma sub_register_setters_frame_witness :
  is_uint8 0xCD /\
  getAL (setAL (set_AX 0x12AB mov_reg_reg) 0xCD) = 0xCD /\
  getAH (setAL (set_AX 0x12AB mov_reg_reg) 0xCD) = 0x12 /\
  only_changes rAX (set_AX 0x12AB mov_reg_reg)
    (setAL (set_AX 0x12AB mov_reg_reg) 0xCD).
Proof.
  assert (Hv : is_uint8 0xCD) by (unfold is_uint8; lia).
  split; [exact Hv|].
  destruct (sub_register_setters_frame (set_AX 0x12AB mov_reg_reg) 0xCD Hv)
    as ((Hlo & Hhi & Hframe) & _).
  split; [exact Hlo|]. split; [exact Hhi|]. exact Hframe.
Defined.

(** * Further properties of the code *)

(** ** The register file *)

(** A 16-bit value is 256 times its high byte plus its low byte. *)
Lemma high_low_compose (a : Z) :
  is_uint16 a -> a = 256 * wrap8 (Z.shiftr a 8) + wrap8 (Z.land a 0xFF).
Proof.
  intros Ha. unfold wrap8. change 0xFF with (Z.ones 8).
  rewrite Z.land_ones, Z.shiftr_div_pow2 by lia.
  unfold is_uint16 in Ha. change (2 ^ 8) with 256.
  rewrite Z.mod_mod by lia.
  rewrite (Z.mod_small (a / 256)) by (split; [apply Z.div_pos | apply Z.div_lt_upper_bound]; lia).
  apply Z.div_mod. lia.
Qed.

Lemma uint16_of_land (r : Z) : Z.land r (Z.ones 16) = r -> is_uint16 r.
Proof.
  intros Hr. rewrite <- Hr, Z.land_ones by lia. unfold is_uint16.
  apply Z.mod_pos_bound. lia.
Qed.

Lemma set_low_range (a v : Z) :
  is_uint16 a -> is_uint8 v -> is_uint16 (Z.lor (Z.land a 0xFF00) v).
Proof.
  intros Ha Hv. apply uint16_of_land.
  rewrite <- (is_uint16_land a Ha), <- (is_uint8_land v Hv). reg_blast.
Qed.

Lemma set_high_range (a v : Z) :
  is_uint16 (Z.lor (Z.land a 0x00FF) (wrap16 (Z.shiftl v 8))).
Proof. apply uint16_of_land. reg_blast. Qed.

(** Bit-blasting that goes on after the indices have been identified. *)
Ltac bits_blast :=
  rewrite ?wrap8_land, ?wrap16_land; masks_as_ones; Z.bitblast; subst;
  repeat match goal with
  | |- context [Z.testbit ?x ?n] => rewrite (Z.testbit_neg_r x n) by lia
  end;
  repeat (rewrite ?Z.land_spec, ?Z.lor_spec;
          rewrite ?Z.testbit_ones_nonneg by lia);
  Z.destruct_ltbs; try (exfalso; lia); btauto.

Lemma write_back_low (a : Z) :
  is_uint16 a -> Z.lor (Z.land a 0xFF00) (wrap8 (Z.land a 0xFF)) = a.
Proof.
  intros Ha. rewrite <- (is_uint16_land a Ha). bits_blast.
Qed.

Lemma write_back_high (a : Z) :
  is_uint16 a ->
  Z.lor (Z.land a 0x00FF) (wrap16 (Z.shiftl (wrap8 (Z.shiftr a 8)) 8)) = a.
Proof.
  intros Ha. rewrite <- (is_uint16_land a Ha). bits_blast.
Qed.

Lemma overwrite_low (a u v : Z) :
  is_uint8 u ->
  Z.lor (Z.land (Z.lor (Z.land a 0xFF00) u) 0xFF00) v
  = Z.lor (Z.land a 0xFF00) v.
Proof.
  intros Hu. rewrite <- (is_uint8_land u Hu). bits_blast.
Qed.

Lemma overwrite_high (a u v : Z) :
  Z.lor (Z.land (Z.lor (Z.land a 0x00FF) (wrap16 (Z.shiftl u 8))) 0x00FF)
        (wrap16 (Z.shiftl v 8))
  = Z.lor (Z.land a 0x00FF) (wrap16 (Z.shiftl v 8)).
Proof. bits_blast. Qed.

Lemma low_high_commute (a u v : Z) :
  is_uint8 u ->
  Z.lor (Z.land (Z.lor (Z.land a 0xFF00) u) 0x00FF) (wrap16 (Z.shiftl v 8))
  = Z.lor (Z.land (Z.lor (Z.land a 0x00FF) (wrap16 (Z.shiftl v 8))) 0xFF00) u.
Proof.
  intros Hu. rewrite <- (is_uint8_land u Hu). bits_blast.
Qed.

Lemma wf_CPU_reg (c : CPU) (r : Reg16) : wf_CPU c -> is_uint16 (get16 r c).
Proof. intros Hwf. exact (wf_regs c Hwf r). Qed.

Lemma set_AX_wf (c : CPU) (v : Z) : wf_CPU c -> is_uint16 v -> wf_CPU (set_AX v c).
Proof.
  intros [Hregs Hmem] Hv. split; [|exact Hmem].
  intros r. pose proof (Hregs r) as Hr.
  destruct r; first [exact Hv | exact Hr].
Qed.

Lemma set_BX_wf (c : CPU) (v : Z) : wf_CPU c -> is_uint16 v -> wf_CPU (set_BX v c).
Proof.
  intros [Hregs Hmem] Hv. split; [|exact Hmem].
  intros r. pose proof (Hregs r) as Hr.
  destruct r; first [exact Hv | exact Hr].
Qed.

Lemma set_CX_wf (c : CPU) (v : Z) : wf_CPU c -> is_uint16 v -> wf_CPU (set_CX v c).
Proof.
  intros [Hregs Hmem] Hv. split; [|exact Hmem].
  intros r. pose proof (Hregs r) as Hr.
  destruct r; first [exact Hv | exact Hr].
Qed.

Lemma set_DX_wf (c : CPU) (v : Z) : wf_CPU c -> is_uint16 v -> wf_CPU (set_DX v c).
Proof.
  intros [Hregs Hmem] Hv. split; [|exact Hmem].
  intros r. pose proof (Hregs r) as Hr.
  destruct r; first [exact Hv | exact Hr].
Qed.

Lemma set_PC_wf (c : CPU) (v : Z) : wf_CPU c -> is_uint16 v -> wf_CPU (set_PC v c).
Proof.
  intros [Hregs Hmem] Hv. split; [|exact Hmem].
  intros r. pose proof (Hregs r) as Hr.
  destruct r; first [exact Hv | exact Hr].
Qed.

(** Each setter keeps a well-formed state well formed. *)
Lemma setter_wf (c : CPU) (v : Z) :
  wf_CPU c -> is_uint8 v ->
  wf_CPU (setAL c v) /\ wf_CPU (setAH c v) /\
  wf_CPU (setBL c v) /\ wf_CPU (setBH c v) /\
  wf_CPU (setCL c v) /\ wf_CPU (setCH c v) /\
  wf_CPU (setDL c v) /\ wf_CPU (setDH c v).
Proof.
  intros Hwf Hv.
  pose proof (wf_CPU_reg c rAX Hwf) as HA. pose proof (wf_CPU_reg c rBX Hwf) as HB.
  pose proof (wf_CPU_reg c rCX Hwf) as HC. pose proof (wf_CPU_reg c rDX Hwf) as HD.
  cbn [get16] in HA, HB, HC, HD.
  repeat apply conj;
    first [ apply set_AX_wf | apply set_BX_wf | apply set_CX_wf | apply set_DX_wf ];
    first [ exact Hwf | apply set_low_range; assumption | apply set_high_range ].
Qed.

Lemma ax_12AB_wf : wf_CPU ax_12AB.
Proof.
  assert (H1 : is_uint8 0xAB) by (unfold is_uint8; lia).
  assert (H2 : is_uint8 0x12) by (unfold is_uint8; lia).
  unfold ax_12AB.
  apply (setter_wf (setAL NewCPU 0xAB) 0x12); [|exact H2].
  apply (setter_wf NewCPU 0xAB); [exact NewCPU_wf | exact H1].
Qed.

(** X1.  In a well-formed state each of AX, BX, CX and DX is 256 times
    what the getter of its high half returns plus what the getter of its
    low half returns. *)
Theorem register_is_high_and_low (c : CPU) (Hwf : wf_CPU c) :
  AX c = 256 * getAH c + getAL c /\
  BX c = 256 * getBH c + getBL c /\
  CX c = 256 * getCH c + getCL c /\
  DX c = 256 * getDH c + getDL c.
Proof.
  repeat apply conj; unfold_regs; apply high_low_compose.
  - exact (wf_CPU_reg c rAX Hwf).
  - exact (wf_CPU_reg c rBX Hwf).
  - exact (wf_CPU_reg c rCX Hwf).
  - exact (wf_CPU_reg c rDX Hwf).
Qed.

Lemma register_is_high_and_low_witness :
  wf_CPU ax_12AB /\
  AX ax_12AB = 0x12AB /\ getAH ax_12AB = 0x12 /\ getAL ax_12AB = 0xAB /\
  AX ax_12AB = 256 * getAH ax_12AB + getAL ax_12AB.
Proof.
  split; [exact ax_12AB_wf|]. split; [reflexivity|].
  split; [reflexivity|]. split; [reflexivity|].
  exact (proj1 (register_is_high_and_low ax_12AB ax_12AB_wf)).
Defined.

(** X2.  Each of the eight setters, given a byte, keeps a well-formed
    state well formed: the register it writes stays below 2^16. *)
Theorem setters_keep_well_formed (c : CPU) (v : Z)
    (Hwf : wf_CPU c) (Hv : is_uint8 v) :
  wf_CPU (setAL c v) /\ wf_CPU (setAH c v) /\
  wf_CPU (setBL c v) /\ wf_CPU (setBH c v) /\
  wf_CPU (setCL c v) /\ wf_CPU (setCH c v) /\
  wf_CPU (setDL c v) /\ wf_CPU (setDH c v).
Proof. exact (setter_wf c v Hwf Hv). Qed.

Lemma setters_keep_well_formed_witness :
  wf_CPU NewCPU /\ is_uint8 0xAB /\ wf_CPU (setAL NewCPU 0xAB) /\
  AX (setAL NewCPU 0xAB) = 0xAB.
Proof.
  assert (Hv : is_uint8 0xAB) by (unfold is_uint8; lia).
  split; [exact NewCPU_wf|]. split; [exact Hv|]. split; [|reflexivity].
  exact (proj1 (setters_keep_well_formed NewCPU 0xAB NewCPU_wf Hv)).
Defined.

Lemma set_AX_id (c : CPU) : set_AX (AX c) c = c.
Proof. destruct c. reflexivity. Qed.
Lemma set_BX_id (c : CPU) : set_BX (BX c) c = c.
Proof. destruct c. reflexivity. Qed.
Lemma set_CX_id (c : CPU) : set_CX (CX c) c = c.
Proof. destruct c. reflexivity. Qed.
Lemma set_DX_id (c : CPU) : set_DX (DX c) c = c.
Proof. destruct c. reflexivity. Qed.

(** X3.  In a well-formed state, writing back into a half register the
    byte just read from it leaves the whole state as it was. *)
Theorem write_back_what_was_read (c : CPU) (Hwf : wf_CPU c) :
  setAL c (getAL c) = c /\ setAH c (getAH c) = c /\
  setBL c (getBL c) = c /\ setBH c (getBH c) = c /\
  setCL c (getCL c) = c /\ setCH c (getCH c) = c /\
  setDL c (getDL c) = c /\ setDH c (getDH c) = c.
Proof.
  pose proof (wf_CPU_reg c rAX Hwf) as HA. pose proof (wf_CPU_reg c rBX Hwf) as HB.
  pose proof (wf_CPU_reg c rCX Hwf) as HC. pose proof (wf_CPU_reg c rDX Hwf) as HD.
  cbn [get16] in HA, HB, HC, HD.
  repeat apply conj;
    unfold getAL, getAH, getBL, getBH, getCL, getCH, getDL, getDH,
      setAL, setAH, setBL, setBH, setCL, setCH, setDL, setDH;
    rewrite ?write_back_low, ?write_back_high by assumption;
    first [ apply set_AX_id | apply set_BX_id | apply set_CX_id | apply set_DX_id ].
Qed.

Lemma write_back_what_was_read_witness :
  wf_CPU ax_12AB /\ setAL ax_12AB (getAL ax_12AB) = ax_12AB /\
  setAH ax_12AB (getAH ax_12AB) = ax_12AB.
Proof.
  split; [exact ax_12AB_wf|].
  destruct (write_back_what_was_read ax_12AB ax_12AB_wf) as (H1 & H2 & _).
  split; [exact H1 | exact H2].
Defined.

(** X4.  For bytes [u] and [v] and each of AX, BX, CX and DX: a second
    write to the same half replaces the first, and a write to the low half
    and a write to the high half give the same state in either order. *)
Theorem half_writes_overwrite_and_commute (c : CPU) (u v : Z)
    (Hu : is_uint8 u) (Hv : is_uint8 v) :
  (setAL (setAL c u) v = setAL c v /\ setAH (setAH c u) v = setAH c v /\
   setAH (setAL c u) v = setAL (setAH c v) u) /\
  (setBL (setBL c u) v = setBL c v /\ setBH (setBH c u) v = setBH c v /\
   setBH (setBL c u) v = setBL (setBH c v) u) /\
  (setCL (setCL c u) v = setCL c v /\ setCH (setCH c u) v = setCH c v /\
   setCH (setCL c u) v = setCL (setCH c v) u) /\
  (setDL (setDL c u) v = setDL c v /\ setDH (setDH c u) v = setDH c v /\
   setDH (setDL c u) v = setDL (setDH c v) u).
Proof.
  repeat apply conj;
    unfold setAL, setAH, setBL, setBH, setCL, setCH, setDL, setDH;
    cbn [AX BX CX DX set_AX set_BX set_CX set_DX];
    rewrite ?overwrite_low, ?overwrite_high, ?(low_high_commute _ u v)
      by assumption;
    reflexivity.
Qed.

Lemma half_writes_overwrite_and_commute_witness :
  is_uint8 0xAB /\ is_uint8 0x12 /\
  setAL (setAL NewCPU 0xAB) 0x12 = setAL NewCPU 0x12 /\
  setAH (setAL NewCPU 0xAB) 0x12 = setAL (setAH NewCPU 0x12) 0xAB.
Proof.
  assert (Hu : is_uint8 0xAB) by (unfold is_uint8; lia).
  assert (Hv : is_uint8 0x12) by (unfold is_uint8; lia).
  split; [exact Hu|]. split; [exact Hv|].
  destruct (half_writes_overwrite_and_commute NewCPU 0xAB 0x12 Hu Hv)
    as ((H1 & _ & H3) & _).
  split; [exact H1 | exact H3].
Defined.

(** ** The opcode table, the length and the decoder *)

Lemma mnemonics_lookup (opcode : Z) :
  mnemonics !! opcode = if opcode =? 0x22 then Some "MOV"%string else None.
Proof.
  unfold mnemonics. destruct (Z.eqb_spec opcode 0x22) as [->|Hne].
  - apply lookup_singleton_eq.
  - apply lookup_singleton_ne. congruence.
Qed.

(** X5.  [calcLen] and the opcode table agree on which classes exist:
    [calcLen] returns a [nil] error exactly for the classes that have an
    entry in [mnemonics], whatever its other arguments are.  The length it
    returns is never above 2, and neither the state nor the direction, mode
    and R/M arguments have any influence on the result. *)
Theorem calcLen_agrees_with_table (c : CPU) (opcode d w mod_ rm : Z) :
  (snd (calcLen c opcode d w mod_ rm) = None <-> is_Some (mnemonics !! opcode)) /\
  (snd (calcLen c opcode d w mod_ rm) = Some (Errorf_invalid_opcode opcode)
     <-> mnemonics !! opcode = None) /\
  0 <= fst (calcLen c opcode d w mod_ rm) <= 2 /\
  (forall c' d' mod' rm',
     calcLen c' opcode d' w mod' rm' = calcLen c opcode d w mod_ rm).
Proof.
  rewrite mnemonics_lookup. unfold calcLen.
  destruct (opcode =? 0x22); destruct (w =? 1); cbn [fst snd];
    (split; [|split; [|split]]);
    try (split; [intros ?; first [eexists; reflexivity | reflexivity | discriminate]
                | intros H; first [reflexivity | discriminate
                                  | destruct H; discriminate]]);
    try lia; try reflexivity.
Qed.

(** A byte is put together again from the fields read off it. *)
Lemma byte_of_fields (m : Z) :
  is_uint8 m ->
  m = 4 * bitfield m 2 6 + 2 * bitfield m 1 1 + bitfield m 0 1 /\
  m = 64 * bitfield m 6 2 + 8 * bitfield m 3 3 + bitfield m 0 3.
Proof.
  unfold is_uint8, bitfield. intros Hm.
  change (2 ^ 0) with 1. change (2 ^ 1) with 2. change (2 ^ 2) with 4.
  change (2 ^ 3) with 8. change (2 ^ 6) with 64.
  split; Z.div_mod_to_equations; lia.
Qed.

Lemma wf_CPU_opcode_byte (c : CPU) : wf_CPU c -> is_uint8 (opcode_byte c).
Proof.
  intros Hwf. apply (wf_mem_bytes c Hwf).
  pose proof (wf_CPU_PC c Hwf) as Hpc. unfold is_uint16, MemSize in *. lia.
Qed.

Lemma wf_CPU_mode_byte (c : CPU) : wf_CPU c -> is_uint8 (mode_byte c).
Proof.
  intros Hwf. apply (wf_mem_bytes c Hwf).
  pose proof (wrap16_range (PC c + 1)) as Hpc. unfold is_uint16, MemSize in *. lia.
Qed.

(** X6.  Whenever a decoding step in a well-formed state hands the fields
    [op d w md rg rm] to the printer, each field is within the width it is
    named for, and the fields put the two bytes at the program counter
    together again: the first is [4*op + 2*d + w], the second
    [64*md + 8*rg + rm]. *)
Theorem decoded_fields_recompose (c : CPU) (Hwf : wf_CPU c)
    (r : Instruction * option error) (c' : CPU) (s : string)
    (op d w md rg rm : Z)
    (Hrun : DecodeInatruction c =
            Returns r c' [Print_mnemonic s; Print_fields op d w md rg rm]) :
  (0 <= op < 64 /\ 0 <= d < 2 /\ 0 <= w < 2 /\
   0 <= md < 4 /\ 0 <= rg < 8 /\ 0 <= rm < 8) /\
  opcode_byte c = 4 * op + 2 * d + w /\
  mode_byte c = 64 * md + 8 * rg + rm.
Proof.
  rewrite DecodeInatruction_eq in Hrun
    by (apply in_bounds_uint16, wf_CPU_PC, Hwf).
  injection Hrun as _ _ _ <- <- <- <- <- <-.
  destruct (byte_of_fields _ (wf_CPU_opcode_byte c Hwf)) as [H1 _].
  destruct (byte_of_fields _ (wf_CPU_mode_byte c Hwf)) as [_ H2].
  split; [|split; [exact H1 | exact H2]].
  pose proof (bitfield_range (opcode_byte c) 2 6).
  pose proof (bitfield_range (opcode_byte c) 1 1).
  pose proof (bitfield_range (opcode_byte c) 0 1).
  pose proof (bitfield_range (mode_byte c) 6 2).
  pose proof (bitfield_range (mode_byte c) 3 3).
  pose proof (bitfield_range (mode_byte c) 0 3).
  change (2 ^ 6) with 64 in *. change (2 ^ 1) with 2 in *.
  change (2 ^ 2) with 4 in *. change (2 ^ 3) with 8 in *. lia.
Qed.

Lemma decoded_fields_recompose_witness :
  wf_CPU mov_reg_reg /\
  DecodeInatruction mov_reg_reg =
    Returns (mkInstruction, None) (set_PC 2 mov_reg_reg)
      [Print_mnemonic "MOV"; Print_fields 0x22 0 0 3 0 3] /\
  opcode_byte mov_reg_reg = 4 * 0x22 + 2 * 0 + 0 /\
  mode_byte mov_reg_reg = 64 * 3 + 8 * 0 + 3.
Proof.
  assert (Hrun : DecodeInatruction mov_reg_reg =
    Returns (mkInstruction, None) (set_PC 2 mov_reg_reg)
      [Print_mnemonic "MOV"; Print_fields 0x22 0 0 3 0 3]).
  { rewrite DecodeInatruction_eq by reflexivity. reflexivity. }
  split; [exact mov_reg_reg_wf|]. split; [exact Hrun|].
  exact (proj2 (decoded_fields_recompose mov_reg_reg mov_reg_reg_wf
                  _ _ _ _ _ _ _ _ _ Hrun)).
Defined.

Lemma mnemonic_of_class (m : Z) :
  is_uint8 m ->
  mnemonic_of (bitfield m 2 6) =
    if (0x88 <=? m) && (m <=? 0x8B) then "MOV"%string else ""%string.
Proof.
  intros Hm. unfold mnemonic_of. rewrite mnemonics_lookup.
  rewrite bitfield_top6 by exact Hm. unfold is_uint8 in Hm.
  destruct (Z.eqb_spec (m / 4) 0x22) as [Heq|Hne];
    destruct (Z.leb_spec 0x88 m); destruct (Z.leb_spec m 0x8B);
    cbn [andb default]; try reflexivity; exfalso;
    revert Heq || revert Hne; Z.div_mod_to_equations; lia.
Qed.

(** X7.  In a well-formed state the decoder names the instruction "MOV"
    exactly when the byte at the program counter is one of 0x88, 0x89,
    0x8A and 0x8B; for every other byte it prints an empty mnemonic, and in
    both cases it returns without error. *)
Theorem decoder_names_MOV (c : CPU) (Hwf : wf_CPU c) :
  exists c' fields,
    DecodeInatruction c =
      Returns (mkInstruction, None) c'
        [Print_mnemonic
           (if (0x88 <=? opcode_byte c) && (opcode_byte c <=? 0x8B)
            then "MOV"%string else ""%string);
         fields].
Proof.
  do 2 eexists.
  rewrite DecodeInatruction_eq by (apply in_bounds_uint16, wf_CPU_PC, Hwf).
  rewrite mnemonic_of_class by (apply wf_CPU_opcode_byte, Hwf).
  reflexivity.
Qed.

Lemma decoder_names_MOV_witness :
  wf_CPU at_top /\ opcode_byte at_top = 0x88 /\
  exists c' fields,
    DecodeInatruction at_top =
      Returns (mkInstruction, None) c' [Print_mnemonic "MOV"; fields].
Proof.
  split; [exact at_top_wf|]. split; [reflexivity|].
  exact (decoder_names_MOV at_top at_top_wf).
Defined.

Lemma set_PC_id (c : CPU) : set_PC (PC c) c = c.
Proof. destruct c. reflexivity. Qed.

Lemma set_PC_set_PC (c : CPU) (x y : Z) : set_PC x (set_PC y c) = set_PC x c.
Proof. reflexivity. Qed.

Lemma wrap16_small (z : Z) : is_uint16 z -> wrap16 z = z.
Proof. intros Hz. apply Z.mod_small. exact Hz. Qed.

Lemma wrap16_add_l (a b : Z) : wrap16 (wrap16 a + b) = wrap16 (a + b).
Proof. unfold wrap16. apply Z.add_mod_idemp_l. lia. Qed.

(** Steps of the decoder one after the other all return; the program
    counter moves on by 2 for each, modulo 2^16, and two lines are printed
    for each. *)
Lemma decode_n_eq (n : nat) : forall c : CPU,
  wf_CPU c ->
  exists out,
    decode_n n c =
      Returns tt (set_PC (wrap16 (PC c + 2 * Z.of_nat n)) c) out /\
    length out = (2 * n)%nat.
Proof.
  induction n as [|n IH]; intros c Hwf.
  - exists []. split; [|reflexivity]. cbn [decode_n]. unfold ret.
    rewrite Z.add_0_r, wrap16_small by (apply wf_CPU_PC, Hwf).
    rewrite set_PC_id. reflexivity.
  - cbn [decode_n]. unfold mbind, M_bind, bind.
    rewrite DecodeInatruction_eq by (apply in_bounds_uint16, wf_CPU_PC, Hwf).
    destruct (IH (set_PC (wrap16 (PC c + 2)) c)) as (out & Hrun & Hlen).
    { apply set_PC_wf; [exact Hwf | apply wrap16_range]. }
    rewrite Hrun. eexists. split.
    + cbn [PC set_PC SP AX BX CX DX SI DI BP CS DS ES SS IP FL Flag
           programSize Memory].
      rewrite wrap16_add_l, set_PC_set_PC.
      replace (PC c + 2 + 2 * Z.of_nat n) with (PC c + 2 * Z.of_nat (S n))
        by lia.
      reflexivity.
    + cbn [app length]. rewrite Hlen. lia.
Qed.

(** X8.  From a well-formed state any number [n] of decoding steps in a
    row return without panic; they change nothing but the program counter,
    which ends at [(PC + 2n) mod 2^16], and print two lines per step.
    After 32,768 steps the program counter has gone once round the first
    64 KiB and the state is the starting state again. *)
Theorem decode_steps_cycle (c : CPU) (n : nat) (Hwf : wf_CPU c) :
  (exists out,
     decode_n n c =
       Returns tt (set_PC ((PC c + 2 * Z.of_nat n) mod 2 ^ 16) c) out /\
     length out = (2 * n)%nat) /\
  final_cpu (decode_n (Z.to_nat 32768) c) = c.
Proof.
  split; [exact (decode_n_eq n c Hwf)|].
  destruct (decode_n_eq (Z.to_nat 32768) c Hwf) as (out & -> & _).
  cbn [final_cpu]. rewrite Z2Nat.id by lia.
  replace (wrap16 (PC c + 2 * 32768)) with (PC c); [apply set_PC_id|].
  unfold wrap16. change (2 * 32768) with (1 * 65536).
  rewrite Z.mod_add by lia. symmetry. apply Z.mod_small, wf_CPU_PC, Hwf.
Qed.

Lemma decode_steps_cycle_witness :
  wf_CPU at_top /\
  exists out, decode_n 3 at_top = Returns tt (set_PC 5 at_top) out.
Proof.
  split; [exact at_top_wf|].
  destruct (decode_steps_cycle at_top 3 at_top_wf) as ((out & Hrun & _) & _).
  exists out. exact Hrun.
Defined.

(** ** The loader, when it returns *)

(** X9.  After a file of at least two bytes that fits the memory has been
    loaded into a new CPU, the first decoding step reads its fields off
    the first two bytes of the file and leaves the program counter on 2. *)
Theorem load_then_decode (fs : FileSystem) (filename : string)
    (b0 b1 : Z) (rest : list Z)
    (Hfile : fs filename = FileBytes (b0 :: b1 :: rest))
    (Hfit : Z.of_nat (length (b0 :: b1 :: rest)) <= MemSize) :
  exists c',
    LoadProgram fs filename NewCPU = Returns None c' [] /\
    DecodeInatruction c' =
      Returns (mkInstruction, None) (set_PC 2 c')
        [Print_mnemonic (mnemonic_of (bitfield b0 2 6));
         Print_fields (bitfield b0 2 6) (bitfield b0 1 1) (bitfield b0 0 1)
                      (bitfield b1 6 2) (bitfield b1 3 3) (bitfield b1 0 3)].
Proof.
  eexists. split; [apply LoadProgram_fits; eassumption|].
  rewrite DecodeInatruction_eq by reflexivity.
  unfold opcode_byte, mode_byte.
  cbn [PC Memory set_programSize set_Memory NewCPU].
  change (wrap16 (0 + 1)) with 1. change (wrap16 (0 + 2)) with 2.
  rewrite !copy_bytes_lookup. cbn [length] in *.
  assert ((0 <? 0 + Z.of_nat (S (S (length rest)))) = true) as ->
    by (apply Z.ltb_lt; lia).
  assert ((1 <? 0 + Z.of_nat (S (S (length rest)))) = true) as ->
    by (apply Z.ltb_lt; lia).
  reflexivity.
Qed.

Lemma load_then_decode_witness :
  file_with [0x8B; 0x06; 0x34; 0x12] "prog.bin"%string
    = FileBytes [0x8B; 0x06; 0x34; 0x12] /\
  Z.of_nat (length [0x8B; 0x06; 0x34; 0x12]) <= MemSize /\
  exists c',
    LoadProgram (file_with [0x8B; 0x06; 0x34; 0x12]) "prog.bin" NewCPU
      = Returns None c' [] /\
    DecodeInatruction c' =
      Returns (mkInstruction, None) (set_PC 2 c')
        [Print_mnemonic "MOV"; Print_fields 0x22 1 1 0 0 6].
Proof.
  assert (Hfit : Z.of_nat (length [0x8B; 0x06; 0x34; 0x12]) <= MemSize)
    by (unfold MemSize; cbn [length]; lia).
  split; [reflexivity|]. split; [exact Hfit|].
  exact (load_then_decode (file_with [0x8B; 0x06; 0x34; 0x12]) "prog.bin"
           0x8B 0x06 [0x34; 0x12] eq_refl Hfit).
Defined.

(** The array after a copy from index 0, byte by byte. *)
Lemma copy_bytes_from_0 (b : list Z) (m : bytes) (i : Z) :
  copy_bytes 0 b m i =
    if (0 <=? i) && (i <? Z.of_nat (length b)) then nth (Z.to_nat i) b 0
    else m i.
Proof. rewrite copy_bytes_lookup, Z.add_0_l, Z.sub_0_r. reflexivity. Qed.

Lemma copy_bytes_inside (b : list Z) (m : bytes) (i : Z) :
  0 <= i < Z.of_nat (length b) -> copy_bytes 0 b m i = nth (Z.to_nat i) b 0.
Proof.
  intros Hi. rewrite copy_bytes_from_0.
  destruct (Z.leb_spec 0 i); destruct (Z.ltb_spec i (Z.of_nat (length b)));
    cbn [andb]; first [reflexivity | lia].
Qed.

Lemma copy_bytes_outside (b : list Z) (m : bytes) (i : Z) :
  ~ 0 <= i < Z.of_nat (length b) -> copy_bytes 0 b m i = m i.
Proof.
  intros Hi. rewrite copy_bytes_from_0.
  destruct (Z.leb_spec 0 i); destruct (Z.ltb_spec i (Z.of_nat (length b)));
    cbn [andb]; first [reflexivity | lia].
Qed.

(** X10.  Loading a file that fits the memory returns [nil]; afterwards
    [programSize] is the length of the file, the memory holds the bytes of
    the file from address 0 on and is unchanged from the end of the file
    on, and no register has changed: the program counter is not reset. *)
Theorem LoadProgram_copies_file (fs : FileSystem) (filename : string)
    (b : list Z) (c : CPU)
    (Hfile : fs filename = FileBytes b)
    (Hfit : Z.of_nat (length b) <= MemSize) :
  exists c',
    LoadProgram fs filename c = Returns None c' [] /\
    programSize c' = Z.of_nat (length b) /\
    (forall i, 0 <= i < Z.of_nat (length b) ->
       Memory c' i = nth (Z.to_nat i) b 0) /\
    (forall i, ~ 0 <= i < Z.of_nat (length b) -> Memory c' i = Memory c i) /\
    (forall r, get16 r c' = get16 r c).
Proof.
  eexists. split; [apply LoadProgram_fits; eassumption|].
  cbn [programSize Memory set_programSize set_Memory].
  split; [reflexivity|]. split; [|split].
  - intros i Hi. apply copy_bytes_inside, Hi.
  - intros i Hi. apply copy_bytes_outside, Hi.
  - intros r. destruct r; reflexivity.
Qed.

Lemma LoadProgram_copies_file_witness :
  file_with [0x88; 0xC3] "prog.bin"%string = FileBytes [0x88; 0xC3] /\
  Z.of_nat (length [0x88; 0xC3]) <= MemSize /\
  exists c',
    LoadProgram (file_with [0x88; 0xC3]) "prog.bin" (set_PC 7 NewCPU)
      = Returns None c' [] /\
    programSize c' = 2 /\ Memory c' 0 = 0x88 /\ Memory c' 1 = 0xC3 /\
    Memory c' 2 = 0 /\ PC c' = 7.
Proof.
  assert (Hfit : Z.of_nat (length [0x88; 0xC3]) <= MemSize)
    by (unfold MemSize; cbn [length]; lia).
  split; [reflexivity|]. split; [exact Hfit|].
  destruct (LoadProgram_copies_file (file_with [0x88; 0xC3]) "prog.bin"
              [0x88; 0xC3] (set_PC 7 NewCPU) eq_refl Hfit)
    as (c' & Hrun & Hsize & Hin & Hout & Hregs).
  exists c'. split; [exact Hrun|]. split; [exact Hsize|].
  split; [exact (Hin 0 ltac:(cbn [length]; lia))|].
  split; [exact (Hin 1 ltac:(cbn [length]; lia))|].
  split; [exact (Hout 2 ltac:(cbn [length]; lia))|].
  exact (Hregs rPC).
Defined.

(** X11.  The only errors that [LoadProgram] returns are those of opening
    and of reading the file, and it returns them with the state untouched
    and nothing printed: a file that was read never makes it return an
    error, whatever its length. *)
Theorem LoadProgram_error_is_io_error (fs : FileSystem) (filename : string)
    (c c' : CPU) (e : error) (out : list Event) :
  LoadProgram fs filename c = Returns (Some e) c' out <->
  (fs filename = OpenFails e \/ fs filename = ReadFails e) /\
  c' = c /\ out = [].
Proof.
  split.
  - intros Hrun. destruct (fs filename) as [e0|e0|b] eqn:Hfile.
    + unfold LoadProgram in Hrun. rewrite Hfile in Hrun.
      injection Hrun as <- <- <-. auto.
    + unfold LoadProgram in Hrun. rewrite Hfile in Hrun.
      injection Hrun as <- <- <-. auto.
    + exfalso. destruct (Z_le_gt_dec (Z.of_nat (length b)) MemSize) as [Hfit|Hbig].
      * rewrite (LoadProgram_fits fs filename b c Hfile Hfit) in Hrun.
        discriminate.
      * rewrite (LoadProgram_overflows fs filename b c Hfile) in Hrun by lia.
        discriminate.
  - intros ([Hfile|Hfile] & -> & ->); unfold LoadProgram; rewrite Hfile;
      reflexivity.
Qed.

(** X12.  [LoadProgram] does not clear the memory: when a second file, no
    longer than the first, is loaded after it, the addresses past the end
    of the second file still hold the bytes of the first, while
    [programSize] is the length of the second. *)
Theorem reload_keeps_old_tail (fs1 fs2 : FileSystem) (f1 f2 : string)
    (b1 b2 : list Z) (c : CPU)
    (Hfile1 : fs1 f1 = FileBytes b1) (Hfile2 : fs2 f2 = FileBytes b2)
    (Hshorter : (length b2 <= length b1)%nat)
    (Hfit : Z.of_nat (length b1) <= MemSize) :
  exists c1 c2,
    LoadProgram fs1 f1 c = Returns None c1 [] /\
    LoadProgram fs2 f2 c1 = Returns None c2 [] /\
    programSize c2 = Z.of_nat (length b2) /\
    (forall i, 0 <= i < Z.of_nat (length b2) ->
       Memory c2 i = nth (Z.to_nat i) b2 0) /\
    (forall i, Z.of_nat (length b2) <= i < Z.of_nat (length b1) ->
       Memory c2 i = nth (Z.to_nat i) b1 0).
Proof.
  do 2 eexists.
  split; [apply LoadProgram_fits; eassumption|].
  split; [apply LoadProgram_fits; [eassumption | lia]|].
  cbn [programSize Memory set_programSize set_Memory].
  split; [reflexivity|]. split.
  - intros i Hi. apply copy_bytes_inside, Hi.
  - intros i Hi. rewrite copy_bytes_outside by lia.
    apply copy_bytes_inside. lia.
Qed.

Lemma reload_keeps_old_tail_witness :
  file_with [0x88; 0x06; 0x34; 0x12] "a.bin"%string
    = FileBytes [0x88; 0x06; 0x34; 0x12] /\
  file_with [0x88; 0xC3] "b.bin"%string = FileBytes [0x88; 0xC3] /\
  (length [0x88; 0xC3] <= length [0x88; 0x06; 0x34; 0x12])%nat /\
  Z.of_nat (length [0x88; 0x06; 0x34; 0x12]) <= MemSize /\
  exists c1 c2,
    LoadProgram (file_with [0x88; 0x06; 0x34; 0x12]) "a.bin" NewCPU
      = Returns None c1 [] /\
    LoadProgram (file_with [0x88; 0xC3]) "b.bin" c1 = Returns None c2 [] /\
    programSize c2 = 2 /\ Memory c2 1 = 0xC3 /\ Memory c2 2 = 0x34.
Proof.
  assert (Hshorter : (length [0x88; 0xC3] <= length [0x88; 0x06; 0x34; 0x12])%nat)
    by (cbn [length]; lia).
  assert (Hfit : Z.of_nat (length [0x88; 0x06; 0x34; 0x12]) <= MemSize)
    by (unfold MemSize; cbn [length]; lia).
  split; [reflexivity|]. split; [reflexivity|].
  split; [exact Hshorter|]. split; [exact Hfit|].
  destruct (reload_keeps_old_tail
              (file_with [0x88; 0x06; 0x34; 0x12]) (file_with [0x88; 0xC3])
              "a.bin" "b.bin" [0x88; 0x06; 0x34; 0x12] [0x88; 0xC3] NewCPU
              eq_refl eq_refl Hshorter Hfit)
    as (c1 & c2 & Hrun1 & Hrun2 & Hsize & Hnew & Hold).
  exists c1, c2. split; [exact Hrun1|]. split; [exact Hrun2|].
  split; [exact Hsize|].
  split; [exact (Hnew 1 ltac:(cbn [length]; lia))|].
  exact (Hold 2 ltac:(cbn [length]; lia)).
Defined.

(** ** States reached through the functions of the file *)

Lemma reachable_inv (c : CPU) :
  reachable c -> wf_CPU c /\ 0 <= programSize c <= MemSize.
Proof.
  induction 1 as
    [ | c v _ [IHwf IHsize] Hv | c v _ [IHwf IHsize] Hv
      | c v _ [IHwf IHsize] Hv | c v _ [IHwf IHsize] Hv
      | c v _ [IHwf IHsize] Hv | c v _ [IHwf IHsize] Hv
      | c v _ [IHwf IHsize] Hv | c v _ [IHwf IHsize] Hv
      | c r c' out _ [IHwf IHsize] Hrun
      | c fs filename e c' out _ [IHwf IHsize] Hbytes Hrun ].
  - split; [exact NewCPU_wf|]. cbn [programSize NewCPU]. unfold MemSize. lia.
  - split; [apply (setter_wf c v IHwf Hv) | exact IHsize].
  - split; [apply (setter_wf c v IHwf Hv) | exact IHsize].
  - split; [apply (setter_wf c v IHwf Hv) | exact IHsize].
  - split; [apply (setter_wf c v IHwf Hv) | exact IHsize].
  - split; [apply (setter_wf c v IHwf Hv) | exact IHsize].
  - split; [apply (setter_wf c v IHwf Hv) | exact IHsize].
  - split; [apply (setter_wf c v IHwf Hv) | exact IHsize].
  - split; [apply (setter_wf c v IHwf Hv) | exact IHsize].
  - rewrite DecodeInatruction_eq in Hrun
      by (apply in_bounds_uint16, wf_CPU_PC, IHwf).
    injection Hrun as _ <- _.
    split; [|exact IHsize]. apply set_PC_wf; [exact IHwf | apply wrap16_range].
  - destruct (fs filename) as [e0|e0|b] eqn:Hfile.
    + unfold LoadProgram in Hrun. rewrite Hfile in Hrun.
      injection Hrun as _ <- _. split; assumption.
    + unfold LoadProgram in Hrun. rewrite Hfile in Hrun.
      injection Hrun as _ <- _. split; assumption.
    + destruct (Z_le_gt_dec (Z.of_nat (length b)) MemSize) as [Hfit|Hbig].
      * rewrite (LoadProgram_fits fs filename b c Hfile Hfit) in Hrun.
        injection Hrun as _ <- _.
        cbn [programSize set_programSize]. split; [|lia].
        destruct IHwf as [Hregs Hmem]. split.
        -- intros r. pose proof (Hregs r) as Hr. destruct r; exact Hr.
        -- intros i Hi. cbn [Memory set_programSize set_Memory].
           apply copy_bytes_wf; [exact (Hbytes _ _ Hfile) | exact Hmem | exact Hi].
      * rewrite (LoadProgram_overflows fs filename b c Hfile) in Hrun by lia.
        discriminate.
Qed.

Lemma mov_reg_reg_reachable : reachable mov_reg_reg.
Proof.
  apply (reach_load NewCPU (file_with [0x88; 0xC3]) "prog.bin" None
           mov_reg_reg []).
  - exact reach_NewCPU.
  - intros name b Hb. injection Hb as <-.
    repeat constructor; unfold is_uint8; lia.
  - reflexivity.
Qed.

(** X13.  Every state that is reached from [NewCPU] by the sub-register
    setters on bytes, by decoding steps and by loads of byte files that
    return is well formed (registers below 2^16, memory cells bytes), and
    its [programSize] is between 0 and the size of the memory. *)
Theorem reachable_states_well_formed (c : CPU) (Hreach : reachable c) :
  wf_CPU c /\ 0 <= programSize c <= MemSize.
Proof. exact (reachable_inv c Hreach). Qed.

Lemma reachable_states_well_formed_witness :
  reachable mov_reg_reg /\ wf_CPU mov_reg_reg /\ programSize mov_reg_reg = 2.
Proof.
  split; [exact mov_reg_reg_reachable|].
  split; [|reflexivity].
  exact (proj1 (reachable_states_well_formed mov_reg_reg mov_reg_reg_reachable)).
Defined.

(** ** Diagnostic printing *)

(** A counted loop each of whose rounds makes one call returns with the
    calls in order. *)
Lemma for_count_done (body : Z -> Printed) (f : Z -> PrintfCall) (n : nat) :
  forall j : Z,
  (forall k, j <= k < j + Z.of_nat n -> body k = Done [f k]) ->
  for_count n j body = Done (map f (seqZ j (Z.of_nat n))).
Proof.
  induction n as [|n IH]; intros j Hbody.
  - reflexivity.
  - cbn [for_count]. rewrite Hbody by lia. rewrite IH by (intros k Hk; apply Hbody; lia).
    rewrite (seqZ_cons j (Z.of_nat (S n))) by lia.
    replace (Z.pred (Z.of_nat (S n))) with (Z.of_nat n) by lia.
    reflexivity.
Qed.

Lemma seqZ_to_nat (m len : Z) : seqZ m (Z.of_nat (Z.to_nat len)) = seqZ m len.
Proof. unfold seqZ. rewrite Nat2Z.id. reflexivity. Qed.

Lemma in_bounds_true (i : Z) : 0 <= i < MemSize -> in_bounds i = true.
Proof.
  intros Hi. unfold in_bounds. apply andb_true_intro.
  split; [apply Z.leb_le | apply Z.ltb_lt]; lia.
Qed.

(** A row that lies inside the array is printed whole. *)
Lemma print_row_done (c : CPU) (i : Z) :
  0 <= i -> i + 15 < MemSize -> print_row c i = Done (row_calls c i).
Proof.
  intros H0 H15. unfold print_row, row_calls.
  rewrite (for_count_done (print_hex c i)
             (fun j => Printf "%02X " [Memory c (i + j)]) 16 0).
  2:{ intros k Hk. unfold print_hex, with_byte, emit.
      rewrite in_bounds_true by lia. reflexivity. }
  rewrite (for_count_done (print_ascii c i)
             (fun j => ascii_call (Memory c (i + j))) 16 0).
  2:{ intros k Hk. unfold print_ascii, with_byte, emit, ascii_call.
      rewrite in_bounds_true by lia.
      destruct ((0x20 <=? Memory c (i + k)) && (Memory c (i + k) <=? 0x7E));
        reflexivity. }
  reflexivity.
Qed.

(** The loop over the rows, entered at row [k], prints the rows from [k]
    to the last one when it is given one round for each. *)
Lemma for_rows_done (c : CPU) (limit : Z) (fuel : nat) :
  limit <= MemSize ->
  forall k : Z,
  0 <= k -> dump_rows limit - k <= Z.of_nat fuel ->
  for_rows fuel (16 * k) limit (print_row c) =
    Done (flat_map (fun k => row_calls c (16 * k))
            (seqZ k (dump_rows limit - k))).
Proof.
  intros Hlimit. unfold dump_rows.
  induction fuel as [|fuel IH]; intros k Hk Hfuel.
  - cbn [for_rows].
    assert ((16 * k <? limit) = false) as ->
      by (apply Z.ltb_ge; revert Hfuel; Z.div_mod_to_equations; lia).
    rewrite seqZ_nil by lia. reflexivity.
  - cbn [for_rows]. destruct (Z.ltb_spec (16 * k) limit) as [Hlt|Hge].
    + assert (Hrows : 0 < (limit + 15) / 16 - k)
        by (Z.div_mod_to_equations; lia).
      rewrite print_row_done by (unfold MemSize in *; lia).
      replace (16 * k + 16) with (16 * (k + 1)) by lia.
      rewrite IH by lia.
      rewrite (seqZ_cons k) by exact Hrows.
      replace (Z.succ k) with (k + 1) by lia.
      replace (Z.pred ((limit + 15) / 16 - k)) with ((limit + 15) / 16 - (k + 1))
        by lia.
      reflexivity.
    + rewrite seqZ_nil by (Z.div_mod_to_equations; lia). reflexivity.
Qed.

Lemma PrintMemory_done (c : CPU) :
  programSize c <= MemSize -> PrintMemory c = Done (dump_calls c).
Proof.
  intros Hsize. unfold PrintMemory, dump_calls.
  rewrite (for_count_done (print_bits c)
             (fun i => Printf "%08b\n" [Memory c i])
             (Z.to_nat (programSize c)) 0).
  2:{ intros k Hk. unfold print_bits, with_byte, emit.
      rewrite in_bounds_true by lia. reflexivity. }
  rewrite seqZ_to_nat.
  pose proof (for_rows_done c (programSize c) (Z.to_nat (programSize c)) Hsize 0)
    as Hrows.
  rewrite Z.mul_0_r, Z.sub_0_r in Hrows. rewrite Hrows.
  - reflexivity.
  - lia.
  - unfold dump_rows. Z.div_mod_to_equations. lia.
Qed.

Lemma row_calls_length (c : CPU) (i : Z) : length (row_calls c i) = 35%nat.
Proof. reflexivity. Qed.

Lemma rows_length (c : CPU) (l : list Z) :
  length (flat_map (fun k => row_calls c (16 * k)) l) = (35 * length l)%nat.
Proof.
  induction l as [|k l IH]; [reflexivity|].
  cbn [flat_map]. rewrite length_app, row_calls_length, IH. cbn [length]. lia.
Qed.

Lemma dump_calls_length (c : CPU) :
  length (dump_calls c) =
    (2 + Z.to_nat (programSize c) + 35 * Z.to_nat (dump_rows (programSize c)))%nat.
Proof.
  unfold dump_calls.
  rewrite !length_app, length_map, rows_length, !length_seqZ. cbn [length]. lia.
Qed.

(** X14.  When [programSize] does not exceed the size of the memory,
    [PrintMemory] returns without panic.  It prints the heading, one line
    of bits for each byte of the program, an empty line, and then one row
    for every 16 bytes begun, each row with its address, sixteen bytes in
    hexadecimal and the same sixteen as characters: the last row is filled
    up from the memory that follows the program.  That makes
    [2 + programSize + 35 * ceil(programSize / 16)] calls of the printer. *)
Theorem PrintMemory_prints_whole_rows (c : CPU)
    (Hsize : programSize c <= MemSize) :
  PrintMemory c = Done (dump_calls c) /\
  length (dump_calls c) =
    (2 + Z.to_nat (programSize c) + 35 * Z.to_nat (dump_rows (programSize c)))%nat.
Proof.
  split; [exact (PrintMemory_done c Hsize) | exact (dump_calls_length c)].
Qed.

Lemma PrintMemory_prints_whole_rows_witness :
  programSize mov_reg_reg <= MemSize /\
  PrintMemory mov_reg_reg = Done (dump_calls mov_reg_reg) /\
  length (dump_calls mov_reg_reg) = 39%nat /\
  In (Printf "%02X " [Memory mov_reg_reg 15]) (dump_calls mov_reg_reg).
Proof.
  assert (Hsize : programSize mov_reg_reg <= MemSize).
  { change (programSize mov_reg_reg) with 2. unfold MemSize. lia. }
  split; [exact Hsize|].
  destruct (PrintMemory_prints_whole_rows mov_reg_reg Hsize) as [Hrun Hlen].
  split; [exact Hrun|]. split; [exact Hlen|].
  vm_compute. do 20 right. left. reflexivity.
Defined.

(** X15.  In every state reached through the functions of the file,
    [PrintRegisters] returns without panic: sixteen lines for the
    registers, the first four with the two halves of AX, BX, CX and DX,
    followed by the whole dump of [PrintMemory]. *)
Theorem PrintRegisters_never_panics (c : CPU) (Hreach : reachable c) :
  exists regs,
    PrintRegisters c = Done (regs ++ dump_calls c) /\
    length regs = 16%nat /\
    nth_error regs 0 =
      Some (Printf "AX: %04X %016b AH: %08b AL: %08b\n"
              [AX c; AX c; getAH c; getAL c]).
Proof.
  destruct (reachable_inv c Hreach) as [_ [_ Hsize]].
  unfold PrintRegisters. rewrite (PrintMemory_done c Hsize).
  eexists (_ :: _ :: _ :: _ :: _ :: _ :: _ :: _ :: _ :: _ :: _ :: _ :: _ :: _ :: _ :: [_]).
  split; [reflexivity|]. split; reflexivity.
Qed.

Lemma PrintRegisters_never_panics_witness :
  reachable mov_reg_reg /\
  exists regs,
    PrintRegisters mov_reg_reg = Done (regs ++ dump_calls mov_reg_reg) /\
    length regs = 16%nat.
Proof.
  split; [exact mov_reg_reg_reachable|].
  destruct (PrintRegisters_never_panics mov_reg_reg mov_reg_reg_reachable)
    as (regs & Hrun & Hlen & _).
  exists regs. split; [exact Hrun | exact Hlen].
Defined.

(** ** What the decoder can see *)

Lemma decode_n_same_low (n : nat) : forall c1 c2 : CPU,
  is_uint16 (PC c1) -> PC c2 = PC c1 ->
  (forall i, 0 <= i < 65536 -> Memory c2 i = Memory c1 i) ->
  output (decode_n n c2) = output (decode_n n c1) /\
  PC (final_cpu (decode_n n c2)) = PC (final_cpu (decode_n n c1)).
Proof.
  induction n as [|n IH]; intros c1 c2 Hpc Heq Hmem.
  - split; [reflexivity | exact Heq].
  - cbn [decode_n]. unfold mbind, M_bind, bind.
    rewrite (DecodeInatruction_eq c1) by (apply in_bounds_uint16, Hpc).
    rewrite (DecodeInatruction_eq c2)
      by (rewrite Heq; apply in_bounds_uint16, Hpc).
    assert (Hop : opcode_byte c2 = opcode_byte c1).
    { unfold opcode_byte. rewrite Heq. apply Hmem, Hpc. }
    assert (Hmode : mode_byte c2 = mode_byte c1).
    { unfold mode_byte. rewrite Heq. apply Hmem, wrap16_range. }
    rewrite Hop, Hmode, Heq.
    destruct (IH (set_PC (wrap16 (PC c1 + 2)) c1) (set_PC (wrap16 (PC c1 + 2)) c2))
      as [Hout Hfin].
    { apply wrap16_range. }
    { reflexivity. }
    { exact Hmem. }
    destruct (decode_n n (set_PC (wrap16 (PC c1 + 2)) c1));
      destruct (decode_n n (set_PC (wrap16 (PC c1 + 2)) c2));
      cbn [output final_cpu] in *; rewrite Hout; split; first [reflexivity | exact Hfin].
Qed.

(** X16.  What any number of decoding steps print, and where they leave
    the program counter, depends only on the first 65,536 bytes of the
    memory: the decoder never reads an address from 0x10000 on, although
    a program of up to 1,048,576 bytes can be loaded. *)
Theorem decoder_sees_first_64K_only (c : CPU) (m' : bytes) (n : nat)
    (Hpc : is_uint16 (PC c))
    (Hlow : forall i, 0 <= i < 65536 -> m' i = Memory c i) :
  output (decode_n n (set_Memory m' c)) = output (decode_n n c) /\
  PC (final_cpu (decode_n n (set_Memory m' c))) = PC (final_cpu (decode_n n c)).
Proof.
  apply decode_n_same_low; [exact Hpc | reflexivity | exact Hlow].
Qed.

Lemma decoder_sees_first_64K_only_witness :
  is_uint16 (PC at_top) /\
  (forall i, 0 <= i < 65536 ->
     (fun j => if j <? 65536 then Memory at_top j else 0xFF) i = Memory at_top i) /\
  output (decode_n 2 (set_Memory
            (fun j => if j <? 65536 then Memory at_top j else 0xFF) at_top))
  = output (decode_n 2 at_top).
Proof.
  assert (Hpc : is_uint16 (PC at_top)) by (exact (wf_CPU_PC at_top at_top_wf)).
  assert (Hlow : forall i, 0 <= i < 65536 ->
     (fun j => if j <? 65536 then Memory at_top j else 0xFF) i = Memory at_top i).
  { intros i Hi. cbv beta.
    destruct (Z.ltb_spec i 65536); [reflexivity | lia]. }
  split; [exact Hpc|]. split; [exact Hlow|].
  exact (proj1 (decoder_sees_first_64K_only at_top _ 2 Hpc Hlow)).
Defined.

(** ** The dump of a loaded file *)

Lemma map_nth_seq_shift {A} (f : Z -> A) (b : list Z) : forall p : list Z,
  map (fun k => f (nth k (p ++ b) 0)) (seq (length p) (length b)) = map f b.
Proof.
  induction b as [|x b IH]; intros p; [reflexivity|].
  cbn [length seq map]. f_equal.
  - rewrite app_nth2 by lia. rewrite Nat.sub_diag. reflexivity.
  - specialize (IH (p ++ [x])). rewrite <- app_assoc in IH. cbn [app] in IH.
    rewrite length_app in IH. cbn [length] in IH.
    replace (length p + 1)%nat with (S (length p)) in IH by lia.
    exact IH.
Qed.

Lemma bits_of_loaded (f : Z -> PrintfCall) (b : list Z) (m : bytes) :
  map (fun i => f (copy_bytes 0 b m i)) (seqZ 0 (Z.of_nat (length b))) = map f b.
Proof.
  unfold seqZ. rewrite Nat2Z.id, <- list_fmap_compose.
  rewrite <- (map_nth_seq_shift f b []). cbn [app length].
  apply map_ext_in. intros k Hk. apply in_seq in Hk. unfold compose.
  rewrite copy_bytes_inside by lia. f_equal. f_equal. lia.
Qed.

(** X17.  After a file that fits has been loaded, [PrintMemory] returns
    and, between its heading and the empty line, prints the bytes of the
    file in order, one line each; the rows of the hexadecimal dump
    follow. *)
Theorem dump_shows_loaded_file (fs : FileSystem) (filename : string)
    (b : list Z) (c : CPU)
    (Hfile : fs filename = FileBytes b)
    (Hfit : Z.of_nat (length b) <= MemSize) :
  exists c' rows,
    LoadProgram fs filename c = Returns None c' [] /\
    PrintMemory c' =
      Done ([Printf "Memory:\n" []]
            ++ map (fun x => Printf "%08b\n" [x]) b
            ++ [Printf "\n" []] ++ rows) /\
    length rows = (35 * Z.to_nat (dump_rows (Z.of_nat (length b))))%nat.
Proof.
  eexists. eexists. split; [apply LoadProgram_fits; eassumption|].
  split.
  - rewrite PrintMemory_done by (cbn [programSize set_programSize]; exact Hfit).
    unfold dump_calls. cbn [programSize Memory set_programSize set_Memory].
    rewrite (bits_of_loaded (fun x => Printf "%08b\n" [x])). reflexivity.
  - rewrite rows_length, length_seqZ. reflexivity.
Qed.

Lemma dump_shows_loaded_file_witness :
  file_with [0x88; 0xC3] "prog.bin"%string = FileBytes [0x88; 0xC3] /\
  Z.of_nat (length [0x88; 0xC3]) <= MemSize /\
  exists c' rows,
    LoadProgram (file_with [0x88; 0xC3]) "prog.bin" NewCPU = Returns None c' [] /\
    PrintMemory c' =
      Done ([Printf "Memory:\n" []; Printf "%08b\n" [0x88];
             Printf "%08b\n" [0xC3]; Printf "\n" []] ++ rows) /\
    length rows = 35%nat.
Proof.
  assert (Hfit : Z.of_nat (length [0x88; 0xC3]) <= MemSize)
    by (unfold MemSize; cbn [length]; lia).
  split; [reflexivity|]. split; [exact Hfit|].
  destruct (dump_shows_loaded_file (file_with [0x88; 0xC3]) "prog.bin"
              [0x88; 0xC3] NewCPU eq_refl Hfit)
    as (c' & rows & Hload & Hdump & Hlen).
  exists c', rows. split; [exact Hload|]. split; [exact Hdump | exact Hlen].
Defined.
